(** * Unscented Kalman filter (CTRV model): the filter of [src/ukf.cpp]

    A shallow embedding of the class [UKF] and of the part of Eigen it calls.

    Reading of the C++ types.  [double] and [float] are both read as the
    real numbers [R]: rounding, NaN and infinities are not modelled, and the
    narrowing conversions ([float ro = ...], [const float delta_t = ...]) are
    the identity.  [int] and [long long] are read as [Z]; the program adds
    and subtracts small constants and time stamps only, signed overflow
    (undefined in C++) is left out.  A dense Eigen matrix is its two
    dimensions and its coefficient function; a [VectorXd] is a matrix with
    one column, as in Eigen. *)

From Stdlib Require Import Reals ZArith List Lra Lia Bool.
Import ListNotations.

Open Scope Z_scope.
Open Scope R_scope.

(** ** Loops *)

(** [for (int i = 0; i < n; i++) s = body(i, s);] *)
Definition for_loop {S : Type} (n : Z) (body : Z -> S -> S) (s : S) : S :=
  fold_left (fun acc i => body (Z.of_nat i) acc) (seq 0 (Z.to_nat n)) s.

(** ** The part of Eigen the filter uses *)

Module Eigen.

Record Matrix : Type := mk {
  rows : Z;
  cols : Z;
  coeff :> Z -> Z -> R
}.

(** [VectorXd] is [Matrix<double, Dynamic, 1>]; [v(i)] is [v(i, 0)]. *)
Definition VectorXd : Type := Matrix.
Definition MatrixXd : Type := Matrix.

Definition at_ (v : VectorXd) (i : Z) : R := v i 0%Z.

(** [MatrixXd(r, c)] leaves the coefficients indeterminate; every use in
    the filter overwrites them before reading, they are read as [0] here. *)
Definition Zero (r c : Z) : Matrix := mk r c (fun _ _ => 0).

Definition fill (x : R) (A : Matrix) : Matrix :=
  mk (rows A) (cols A) (fun _ _ => x).

Definition Identity (r c : Z) : Matrix :=
  mk r c (fun i j => if (i =? j)%Z then 1 else 0).

(** The sum [f 0 + ... + f (n-1)] of a matrix product's inner loop. *)
Definition sum_upto (n : Z) (f : Z -> R) : R :=
  for_loop n (fun k acc => acc + f k) 0.

Definition add (A B : Matrix) : Matrix :=
  mk (rows A) (cols A) (fun i j => A i j + B i j).

Definition sub (A B : Matrix) : Matrix :=
  mk (rows A) (cols A) (fun i j => A i j - B i j).

Definition scale (s : R) (A : Matrix) : Matrix :=
  mk (rows A) (cols A) (fun i j => s * A i j).

Definition mul (A B : Matrix) : Matrix :=
  mk (rows A) (cols B) (fun i j => sum_upto (cols A) (fun k => A i k * B k j)).

Definition transpose (A : Matrix) : Matrix :=
  mk (cols A) (rows A) (fun i j => A j i).

(** [A.col(j)] *)
Definition col (j : Z) (A : Matrix) : VectorXd :=
  mk (rows A) 1 (fun i _ => A i j).

(** [A.col(j) = v] *)
Definition set_col (j : Z) (v : VectorXd) (A : Matrix) : Matrix :=
  mk (rows A) (cols A) (fun i k => if (k =? j)%Z then at_ v i else A i k).

(** [A(i, j) = x] *)
Definition set_coeff (i j : Z) (x : R) (A : Matrix) : Matrix :=
  mk (rows A) (cols A)
     (fun r c => if ((r =? i) && (c =? j))%Z%bool then x else A r c).

(** [A.block(i0, j0, r, c)] *)
Definition block (i0 j0 r c : Z) (A : Matrix) : Matrix :=
  mk r c (fun i j => A (i0 + i)%Z (j0 + j)%Z).

(** [A.topLeftCorner(r, c) = B] and, for vectors, [v.head(r) = w]. *)
Definition set_topLeftCorner (r c : Z) (B : Matrix) (A : Matrix) : Matrix :=
  mk (rows A) (cols A)
     (fun i j => if ((i <? r) && (j <? c))%Z%bool then B i j else A i j).

(** The [i]-th of the values listed in a comma initialiser. *)
Fixpoint listed {A : Type} (d : A) (l : list A) (i : Z) : A :=
  match l with
  | [] => d
  | x :: l' => if (i =? 0)%Z then x else listed d l' (i - 1)%Z
  end.

(** The comma initialiser [v << a, b, ...;] of a column vector. *)
Definition of_list (l : list R) : VectorXd :=
  mk (Z.of_nat (length l)) 1 (fun i _ => listed 0 l i).

(** The comma initialiser of a matrix, row by row. *)
Definition of_rows (c : Z) (l : list (list R)) : MatrixXd :=
  mk (Z.of_nat (length l)) c (fun i j => listed 0 (listed [] l i) j).

(** The lower triangular view [.matrixL()]. *)
Definition lower (A : Matrix) : Matrix :=
  mk (rows A) (cols A) (fun i j => if (j <=? i)%Z then A i j else 0).

(** [ComputationInfo], as far as [LLT::info()] can return it. *)
Inductive ComputationInfo : Type := Success | NumericalIssue.

(** What [A.llt()] holds: the factor and the status of the factorisation. *)
Record LLT : Type := mkLLT {
  matrixL : Matrix;
  info : ComputationInfo
}.

End Eigen.

Import Eigen.

Declare Scope eigen_scope.
Delimit Scope eigen_scope with M.
Infix "+" := Eigen.add : eigen_scope.
Infix "-" := Eigen.sub : eigen_scope.
Infix "*" := Eigen.mul : eigen_scope.
Infix "*:" := Eigen.scale (at level 40, left associativity) : eigen_scope.

(** ** The C library *)

(** [atan2(y, x)] of <cmath>, with the IEEE value [0] at the origin. *)
Definition atan2 (y x : R) : R :=
  if Rlt_dec 0 x then atan (y / x)
  else if Rlt_dec x 0 then
         if Rle_dec 0 y then atan (y / x) + PI else atan (y / x) - PI
  else if Rlt_dec 0 y then PI / 2
  else if Rlt_dec y 0 then - (PI / 2)
  else 0.

(** [numeric_limits<double>::epsilon()], two to the power -52. *)
Definition epsilon : R := / 2 ^ 52.


(** ** The measurement record *)

(** [MeasurementPackage] is declared in measurement_package.h, which is not
    among the sources; the fields and the two sensor types are those
    ukf.cpp reads. *)
Inductive SensorType : Type := LASER | RADAR.

Record MeasurementPackage : Type := mkMeas {
  timestamp_ : Z;
  sensor_type_ : SensorType;
  raw_measurements_ : VectorXd
}.

Definition SensorType_eqb (a b : SensorType) : bool :=
  match a, b with
  | LASER, LASER | RADAR, RADAR => true
  | _, _ => false
  end.

(** ** The filter object *)

(** The data members of [UKF] (declared in ukf.h, which is not among the
    sources), with the types their uses in ukf.cpp give them; [lambda_] is
    a [double], as the weight formula [lambda_/(lambda_+n_aug_)] needs. *)
Record UKF : Type := mkUKF {
  is_initialized_ : bool;
  use_laser_ : bool;
  use_radar_ : bool;
  x_ : VectorXd;
  P_ : MatrixXd;
  Xsig_pred_ : MatrixXd;
  time_us_ : Z;
  std_a_ : R;
  std_yawdd_ : R;
  std_laspx_ : R;
  std_laspy_ : R;
  std_radr_ : R;
  std_radphi_ : R;
  std_radrd_ : R;
  weights_ : VectorXd;
  n_x_ : Z;
  n_aug_ : Z;
  n_sig_ : Z;
  n_z_radar_ : Z;
  n_z_laser_ : Z;
  lambda_ : R;
  NIS_radar_ : R;
  NIS_laser_ : R;
  R_lidar_ : MatrixXd;
  R_radar_ : MatrixXd
}.

(** Assignments to the members the methods write, and to the two toggles,
    which the client sets. *)
Definition set_use_laser_ (b : bool) (u : UKF) : UKF :=
  let 'mkUKF a1 _ a3 a4 a5 a6 a7 a8 a9 a10 a11 a12 a13 a14 a15 a16 a17 a18
             a19 a20 a21 a22 a23 a24 a25 := u in
  mkUKF a1 b a3 a4 a5 a6 a7 a8 a9 a10 a11 a12 a13 a14 a15 a16 a17 a18
        a19 a20 a21 a22 a23 a24 a25.

Definition set_use_radar_ (b : bool) (u : UKF) : UKF :=
  let 'mkUKF a1 a2 _ a4 a5 a6 a7 a8 a9 a10 a11 a12 a13 a14 a15 a16 a17 a18
             a19 a20 a21 a22 a23 a24 a25 := u in
  mkUKF a1 a2 b a4 a5 a6 a7 a8 a9 a10 a11 a12 a13 a14 a15 a16 a17 a18
        a19 a20 a21 a22 a23 a24 a25.

Definition set_is_initialized_ (b : bool) (u : UKF) : UKF :=
  let 'mkUKF _ a2 a3 a4 a5 a6 a7 a8 a9 a10 a11 a12 a13 a14 a15 a16 a17 a18
             a19 a20 a21 a22 a23 a24 a25 := u in
  mkUKF b a2 a3 a4 a5 a6 a7 a8 a9 a10 a11 a12 a13 a14 a15 a16 a17 a18
        a19 a20 a21 a22 a23 a24 a25.

Definition set_x_ (x : VectorXd) (u : UKF) : UKF :=
  let 'mkUKF a1 a2 a3 _ a5 a6 a7 a8 a9 a10 a11 a12 a13 a14 a15 a16 a17 a18
             a19 a20 a21 a22 a23 a24 a25 := u in
  mkUKF a1 a2 a3 x a5 a6 a7 a8 a9 a10 a11 a12 a13 a14 a15 a16 a17 a18
        a19 a20 a21 a22 a23 a24 a25.

Definition set_P_ (P : MatrixXd) (u : UKF) : UKF :=
  let 'mkUKF a1 a2 a3 a4 _ a6 a7 a8 a9 a10 a11 a12 a13 a14 a15 a16 a17 a18
             a19 a20 a21 a22 a23 a24 a25 := u in
  mkUKF a1 a2 a3 a4 P a6 a7 a8 a9 a10 a11 a12 a13 a14 a15 a16 a17 a18
        a19 a20 a21 a22 a23 a24 a25.

Definition set_Xsig_pred_ (X : MatrixXd) (u : UKF) : UKF :=
  let 'mkUKF a1 a2 a3 a4 a5 _ a7 a8 a9 a10 a11 a12 a13 a14 a15 a16 a17 a18
             a19 a20 a21 a22 a23 a24 a25 := u in
  mkUKF a1 a2 a3 a4 a5 X a7 a8 a9 a10 a11 a12 a13 a14 a15 a16 a17 a18
        a19 a20 a21 a22 a23 a24 a25.

Definition set_time_us_ (t : Z) (u : UKF) : UKF :=
  let 'mkUKF a1 a2 a3 a4 a5 a6 _ a8 a9 a10 a11 a12 a13 a14 a15 a16 a17 a18
             a19 a20 a21 a22 a23 a24 a25 := u in
  mkUKF a1 a2 a3 a4 a5 a6 t a8 a9 a10 a11 a12 a13 a14 a15 a16 a17 a18
        a19 a20 a21 a22 a23 a24 a25.

Definition set_weights_ (w : VectorXd) (u : UKF) : UKF :=
  let 'mkUKF a1 a2 a3 a4 a5 a6 a7 a8 a9 a10 a11 a12 a13 a14 _ a16 a17 a18
             a19 a20 a21 a22 a23 a24 a25 := u in
  mkUKF a1 a2 a3 a4 a5 a6 a7 a8 a9 a10 a11 a12 a13 a14 w a16 a17 a18
        a19 a20 a21 a22 a23 a24 a25.

Definition set_NIS_radar_ (x : R) (u : UKF) : UKF :=
  let 'mkUKF a1 a2 a3 a4 a5 a6 a7 a8 a9 a10 a11 a12 a13 a14 a15 a16 a17 a18
             a19 a20 a21 _ a23 a24 a25 := u in
  mkUKF a1 a2 a3 a4 a5 a6 a7 a8 a9 a10 a11 a12 a13 a14 a15 a16 a17 a18
        a19 a20 a21 x a23 a24 a25.

Definition set_NIS_laser_ (x : R) (u : UKF) : UKF :=
  let 'mkUKF a1 a2 a3 a4 a5 a6 a7 a8 a9 a10 a11 a12 a13 a14 a15 a16 a17 a18
             a19 a20 a21 a22 _ a24 a25 := u in
  mkUKF a1 a2 a3 a4 a5 a6 a7 a8 a9 a10 a11 a12 a13 a14 a15 a16 a17 a18
        a19 a20 a21 a22 x a24 a25.

(** [UKF::UKF()].  [Xsig_pred_] and [weights_] are default-constructed
    (empty) until the first prediction. *)
Definition UKF_new : UKF :=
  let n_x := 5%Z in
  let n_aug := 7%Z in
  let n_sig := (2 * n_aug + 1)%Z in
  let n_z_radar := 3%Z in
  let n_z_laser := 2%Z in
  let lambda := IZR (3 - n_aug) in
  let std_laspx := 0.15 in
  let std_laspy := 0.15 in
  let std_radr := 0.3 in
  let std_radphi := 0.03 in
  let std_radrd := 0.3 in
  {| is_initialized_ := false;
     use_laser_ := true;
     use_radar_ := true;
     x_ := Zero n_x 1;
     P_ := Identity n_x n_x;
     Xsig_pred_ := Zero 0 0;
     time_us_ := 0;
     std_a_ := 0.25;
     std_yawdd_ := 20.0 / 100.0 * PI;
     std_laspx_ := std_laspx;
     std_laspy_ := std_laspy;
     std_radr_ := std_radr;
     std_radphi_ := std_radphi;
     std_radrd_ := std_radrd;
     weights_ := Zero 0 1;
     n_x_ := n_x;
     n_aug_ := n_aug;
     n_sig_ := n_sig;
     n_z_radar_ := n_z_radar;
     n_z_laser_ := n_z_laser;
     lambda_ := lambda;
     NIS_radar_ := 0.0;
     NIS_laser_ := 0.0;
     R_lidar_ := of_rows n_z_laser
                   [[std_laspx * std_laspx; 0];
                    [0; std_laspy * std_laspy]];
     R_radar_ := of_rows n_z_radar
                   [[std_radr * std_radr; 0; 0];
                    [0; std_radphi * std_radphi; 0];
                    [0; 0; std_radrd * std_radrd]] |}.

(** ** The methods of [UKF] *)

Section Methods.

(** [Tools::NormalizeAngle(double&)] of tools.cpp, which is not among the
    sources: the value it leaves in its argument.  A parameter of the
    development. *)
Variable NormalizeAngle : R -> R.

(** Eigen's [A.llt()] and [A.inverse()].  Parameters of the development:
    nothing proved below depends on how Eigen computes them. *)
Variable llt : MatrixXd -> LLT.
Variable inverse : MatrixXd -> MatrixXd.

(** [Tools::NormalizeAngle(v(i));] *)
Definition normalize_at (i : Z) (v : VectorXd) : VectorXd :=
  set_coeff i 0 (NormalizeAngle (at_ v i)) v.

(** The augmented mean and covariance built at the head of
    [AugmentedSigmaPoints]. *)
Definition x_aug_of (u : UKF) : VectorXd :=
  let x_aug := Zero (n_aug_ u) 1 in
  let x_aug := set_topLeftCorner 5 1 (x_ u) x_aug in
  let x_aug := set_coeff 5 0 0 x_aug in
  let x_aug := set_coeff 6 0 0 x_aug in
  x_aug.

Definition P_aug_of (u : UKF) : MatrixXd :=
  let P_aug := Zero (n_aug_ u) (n_aug_ u) in
  let P_aug := fill 0.0 P_aug in
  let P_aug := set_topLeftCorner 5 5 (P_ u) P_aug in
  let P_aug := set_coeff 5 5 (std_a_ u * std_a_ u) P_aug in
  let P_aug := set_coeff 6 6 (std_yawdd_ u * std_yawdd_ u) P_aug in
  P_aug.

(** [AugmentedSigmaPoints(&Xsig_aug)]: the matrix it writes through its
    pointer.  Of what [llt()] returns the method takes [matrixL()] only;
    it has no other exit than the end of its body. *)
Definition AugmentedSigmaPoints (u : UKF) : MatrixXd :=
  let x_aug := x_aug_of u in
  let P_aug := P_aug_of u in
  let Xsig_aug := Zero (n_aug_ u) (n_sig_ u) in
  let L := matrixL (llt P_aug) in
  let Xsig_aug := set_col 0 x_aug Xsig_aug in
  for_loop (n_aug_ u)
    (fun i Xsig_aug =>
       let Xsig_aug :=
         set_col (i + 1)
           (x_aug + sqrt (lambda_ u + IZR (n_aug_ u)) *: col i L)%M Xsig_aug in
       set_col (i + 1 + n_aug_ u)
         (x_aug - sqrt (lambda_ u + IZR (n_aug_ u)) *: col i L)%M Xsig_aug)
    Xsig_aug.

(** The body of the loop of [SigmaPointPrediction], for column [i]; the
    pair [p] holds the values the taken branch assigns to [px_p] and
    [py_p]. *)
Definition SigmaPointPrediction_body (Xsig_aug : MatrixXd) (delta_t : R)
    (i : Z) (Xsig_pred : MatrixXd) : MatrixXd :=
  let p_x := Xsig_aug 0%Z i in
  let p_y := Xsig_aug 1%Z i in
  let v := Xsig_aug 2%Z i in
  let yaw := Xsig_aug 3%Z i in
  let yawd := Xsig_aug 4%Z i in
  let nu_a := Xsig_aug 5%Z i in
  let nu_yawdd := Xsig_aug 6%Z i in
  let p :=
    if Rgt_dec (Rabs yawd) 0.001 then
      (p_x + v / yawd * (sin (yaw + yawd * delta_t) - sin yaw),
       p_y + v / yawd * (cos yaw - cos (yaw + yawd * delta_t)))
    else
      (p_x + v * delta_t * cos yaw,
       p_y + v * delta_t * sin yaw) in
  let px_p := fst p in
  let py_p := snd p in
  let v_p := v in
  let yaw_p := yaw + yawd * delta_t in
  let yawd_p := yawd in
  let px_p := px_p + 0.5 * nu_a * delta_t * delta_t * cos yaw in
  let py_p := py_p + 0.5 * nu_a * delta_t * delta_t * sin yaw in
  let v_p := v_p + nu_a * delta_t in
  let yaw_p := yaw_p + 0.5 * nu_yawdd * delta_t * delta_t in
  let yawd_p := yawd_p + nu_yawdd * delta_t in
  let Xsig_pred := set_coeff 0 i px_p Xsig_pred in
  let Xsig_pred := set_coeff 1 i py_p Xsig_pred in
  let Xsig_pred := set_coeff 2 i v_p Xsig_pred in
  let Xsig_pred := set_coeff 3 i yaw_p Xsig_pred in
  let Xsig_pred := set_coeff 4 i yawd_p Xsig_pred in
  Xsig_pred.

Definition SigmaPointPrediction (u : UKF) (Xsig_aug : MatrixXd)
    (delta_t : R) : MatrixXd :=
  let Xsig_pred := Zero (n_x_ u) (n_sig_ u) in
  for_loop (n_sig_ u) (SigmaPointPrediction_body Xsig_aug delta_t) Xsig_pred.

(** The weights set at the head of [PredictMeanAndCovariance]. *)
Definition set_weights (u : UKF) : VectorXd :=
  let weights := Zero (n_sig_ u) 1 in
  let weight_0 := lambda_ u / (lambda_ u + IZR (n_aug_ u)) in
  let weights := fill (0.5 / (lambda_ u + IZR (n_aug_ u))) weights in
  let weights := set_coeff 0 0 weight_0 weights in
  weights.

(** [PredictMeanAndCovariance(&x, &P, &weights)]: the three values it
    writes through its pointers. *)
Definition PredictMeanAndCovariance (u : UKF)
    : VectorXd * MatrixXd * VectorXd :=
  let weights := set_weights u in
  let x := Zero (n_x_ u) 1 in
  let P := Zero (n_x_ u) (n_x_ u) in
  let x := fill 0.0 x in
  let x := (x + Xsig_pred_ u * weights)%M in
  let P := fill 0.0 P in
  let P :=
    for_loop (n_sig_ u)
      (fun i P =>
         let x_diff := (col i (Xsig_pred_ u) - x)%M in
         let x_diff := normalize_at 3 x_diff in
         (P + (at_ weights i *: x_diff) * transpose x_diff)%M)
      P in
  (x, P, weights).

Definition Prediction (delta_t : R) (u : UKF) : UKF :=
  let Xsig_aug := AugmentedSigmaPoints u in
  let u := set_Xsig_pred_ (SigmaPointPrediction u Xsig_aug delta_t) u in
  let '(x, P, weights) := PredictMeanAndCovariance u in
  set_weights_ weights (set_P_ P (set_x_ x u)).

(** *** Update with a laser measurement *)

(** Lines 385-410 of [UpdateLidar]: the sigma points in measurement space,
    the predicted measurement and the innovation covariance [S]. *)
Definition UpdateLidar_Zsig (u : UKF) : MatrixXd :=
  block 0 0 (n_z_laser_ u) (n_sig_ u) (Xsig_pred_ u).

Definition UpdateLidar_z_pred (u : UKF) : VectorXd :=
  let Zsig := UpdateLidar_Zsig u in
  let z_pred := Zero (n_z_laser_ u) 1 in
  let z_pred := fill 0.0 z_pred in
  for_loop (n_sig_ u)
    (fun i z_pred => (z_pred + at_ (weights_ u) i *: col i Zsig)%M) z_pred.

Definition UpdateLidar_S (u : UKF) : MatrixXd :=
  let Zsig := UpdateLidar_Zsig u in
  let z_pred := UpdateLidar_z_pred u in
  let S := Zero (n_z_laser_ u) (n_z_laser_ u) in
  let S := fill 0.0 S in
  let S :=
    for_loop (n_sig_ u)
      (fun i S =>
         let z_diff := (col i Zsig - z_pred)%M in
         (S + (at_ (weights_ u) i *: z_diff) * transpose z_diff)%M)
      S in
  (S + R_lidar_ u)%M.

Definition UpdateLidar (u : UKF) (meas_package : MeasurementPackage) : UKF :=
  let z := raw_measurements_ meas_package in
  let Zsig := UpdateLidar_Zsig u in
  let z_pred := UpdateLidar_z_pred u in
  let S := UpdateLidar_S u in
  let Tc := Zero (n_x_ u) (n_z_laser_ u) in
  let Tc := fill 0.0 Tc in
  let Tc :=
    for_loop (n_sig_ u)
      (fun i Tc =>
         let z_diff := (col i Zsig - z_pred)%M in
         let x_diff := (col i (Xsig_pred_ u) - x_ u)%M in
         let x_diff := normalize_at 3 x_diff in
         (Tc + (at_ (weights_ u) i *: x_diff) * transpose z_diff)%M)
      Tc in
  let K := (Tc * inverse S)%M in
  let z_diff := (z - z_pred)%M in
  let x := (x_ u + K * z_diff)%M in
  let P := (P_ u - K * S * transpose K)%M in
  let NIS_laser := (transpose z_diff * inverse S * z_diff)%M 0%Z 0%Z in
  set_NIS_laser_ NIS_laser (set_P_ P (set_x_ x u)).

(** *** Update with a radar measurement *)

(** Lines 499-503: the coordinates the bearing and the range rate are
    computed from. *)
Definition radar_guard (p_x p_y : R) : R * R :=
  if Rlt_dec (Rabs p_x) epsilon then
    if Rlt_dec (Rabs p_y) epsilon then (epsilon, epsilon) else (p_x, p_y)
  else (p_x, p_y).

(** The body of the loop of lines 485-506, for column [i]; the range is
    written before the guard, the bearing and the range rate after it. *)
Definition UpdateRadar_Zsig_body (u : UKF) (i : Z) (Zsig : MatrixXd)
    : MatrixXd :=
  let p_x := Xsig_pred_ u 0%Z i in
  let p_y := Xsig_pred_ u 1%Z i in
  let v := Xsig_pred_ u 2%Z i in
  let yaw := Xsig_pred_ u 3%Z i in
  let v1 := cos yaw * v in
  let v2 := sin yaw * v in
  let Zsig := set_coeff 0 i (sqrt (p_x * p_x + p_y * p_y)) Zsig in
  let g := radar_guard p_x p_y in
  let p_x := fst g in
  let p_y := snd g in
  let Zsig := set_coeff 1 i (atan2 p_y p_x) Zsig in
  let Zsig :=
    set_coeff 2 i ((p_x * v1 + p_y * v2) / sqrt (p_x * p_x + p_y * p_y))
      Zsig in
  Zsig.

Definition UpdateRadar_Zsig (u : UKF) : MatrixXd :=
  let Zsig := Zero (n_z_radar_ u) (n_sig_ u) in
  for_loop (n_sig_ u) (UpdateRadar_Zsig_body u) Zsig.

Definition UpdateRadar_z_pred (u : UKF) : VectorXd :=
  let Zsig := UpdateRadar_Zsig u in
  let z_pred := Zero (n_z_radar_ u) 1 in
  let z_pred := fill 0.0 z_pred in
  for_loop (n_sig_ u)
    (fun i z_pred => (z_pred + at_ (weights_ u) i *: col i Zsig)%M) z_pred.

Definition UpdateRadar_S (u : UKF) : MatrixXd :=
  let Zsig := UpdateRadar_Zsig u in
  let z_pred := UpdateRadar_z_pred u in
  let S := Zero (n_z_radar_ u) (n_z_radar_ u) in
  let S := fill 0.0 S in
  let S :=
    for_loop (n_sig_ u)
      (fun i S =>
         let z_diff := (col i Zsig - z_pred)%M in
         let z_diff := normalize_at 1 z_diff in
         (S + (at_ (weights_ u) i *: z_diff) * transpose z_diff)%M)
      S in
  (S + R_radar_ u)%M.

Definition UpdateRadar (u : UKF) (meas_package : MeasurementPackage) : UKF :=
  let z := raw_measurements_ meas_package in
  let Zsig := UpdateRadar_Zsig u in
  let z_pred := UpdateRadar_z_pred u in
  let S := UpdateRadar_S u in
  let Tc := Zero (n_x_ u) (n_z_radar_ u) in
  let Tc := fill 0.0 Tc in
  let Tc :=
    for_loop (n_sig_ u)
      (fun i Tc =>
         let z_diff := (col i Zsig - z_pred)%M in
         let z_diff := normalize_at 1 z_diff in
         let x_diff := (col i (Xsig_pred_ u) - x_ u)%M in
         let x_diff := normalize_at 3 x_diff in
         (Tc + (at_ (weights_ u) i *: x_diff) * transpose z_diff)%M)
      Tc in
  let K := (Tc * inverse S)%M in
  let z_diff := (z - z_pred)%M in
  let z_diff := normalize_at 1 z_diff in
  let x := (x_ u + K * z_diff)%M in
  let P := (P_ u - K * S * transpose K)%M in
  let NIS_radar := (transpose z_diff * inverse S * z_diff)%M 0%Z 0%Z in
  set_NIS_radar_ NIS_radar (set_P_ P (set_x_ x u)).

(** *** The entry point *)

Definition ProcessMeasurement (u : UKF) (meas_package : MeasurementPackage)
    : UKF :=
  if negb (is_initialized_ u) then
    let u :=
      if use_radar_ u && SensorType_eqb (sensor_type_ meas_package) RADAR then
        let ro := at_ (raw_measurements_ meas_package) 0 in
        let phi := at_ (raw_measurements_ meas_package) 1 in
        let ro_dot := at_ (raw_measurements_ meas_package) 2 in
        let u := set_x_ (of_list [ro * cos phi; ro * sin phi; ro_dot; 0; 0]) u in
        set_is_initialized_ true u
      else if use_laser_ u
              && SensorType_eqb (sensor_type_ meas_package) LASER then
        let u :=
          set_x_ (of_list [at_ (raw_measurements_ meas_package) 0;
                           at_ (raw_measurements_ meas_package) 1; 0; 0; 0])
            u in
        set_is_initialized_ true u
      else u in
    set_time_us_ (timestamp_ meas_package) u
  else
    let delta_t := IZR (timestamp_ meas_package - time_us_ u) / 1000000.0 in
    let u := set_time_us_ (timestamp_ meas_package) u in
    let u := Prediction delta_t u in
    if use_radar_ u && SensorType_eqb (sensor_type_ meas_package) RADAR then
      UpdateRadar u meas_package
    else if use_laser_ u
            && SensorType_eqb (sensor_type_ meas_package) LASER then
      UpdateLidar u meas_package
    else u.

End Methods.

(** ** Vocabulary of the properties *)

(** The toggle of a measurement's sensor type. *)
Definition sensor_enabled (u : UKF) (t : SensorType) : bool :=
  match t with
  | RADAR => use_radar_ u
  | LASER => use_laser_ u
  end.

(** The filters a client can arrive at: it constructs one, sets the two
    toggles and feeds measurements. *)
Inductive reachable (NormalizeAngle : R -> R) (llt : MatrixXd -> LLT)
    (inverse : MatrixXd -> MatrixXd) : UKF -> Prop :=
| reachable_new : reachable NormalizeAngle llt inverse UKF_new
| reachable_use_laser (b : bool) (u : UKF) :
    reachable NormalizeAngle llt inverse u ->
    reachable NormalizeAngle llt inverse (set_use_laser_ b u)
| reachable_use_radar (b : bool) (u : UKF) :
    reachable NormalizeAngle llt inverse u ->
    reachable NormalizeAngle llt inverse (set_use_radar_ b u)
| reachable_measurement (u : UKF) (m : MeasurementPackage) :
    reachable NormalizeAngle llt inverse u ->
    reachable NormalizeAngle llt inverse
      (ProcessMeasurement NormalizeAngle llt inverse u m).

(** The [delta_t] line 154 computes during a call of [ProcessMeasurement]:
    the line is reached only past the initialisation branch. *)
Definition ProcessMeasurement_delta_t (u : UKF)
    (meas_package : MeasurementPackage) : option R :=
  if negb (is_initialized_ u) then None
  else Some (IZR (timestamp_ meas_package - time_us_ u) / 1000000.0).

(** The factorisation [llt] with its status masked: the same factor,
    reported as a success whatever happened. *)
Definition status_masked (llt : MatrixXd -> LLT) (A : MatrixXd) : LLT :=
  mkLLT (matrixL (llt A)) Success.

(** [S] is positive definite: its quadratic form is positive away from
    zero.  (Symmetry is not asked for; nothing below needs it.) *)
Definition positive_definite (n : Z) (S : MatrixXd) : Prop :=
  forall v : VectorXd,
    (exists i, (0 <= i < n)%Z /\ at_ v i <> 0) ->
    0 < sum_upto n (fun i => sum_upto n (fun j => at_ v i * S i j * at_ v j)).

(** [T] is the [n] by [n] inverse of [S]. *)
Definition inverse_of (n : Z) (S T : MatrixXd) : Prop :=
  rows T = n /\ cols T = n /\ cols S = n
  /\ forall i j, (0 <= i < n)%Z -> (0 <= j < n)%Z ->
       (S * T)%M i j = Identity n n i j.

(** The residual of sigma point [i] in the radar measurement space, as
    the loops of [UpdateRadar] form it. *)
Definition radar_residual (NormalizeAngle : R -> R) (u : UKF) (i : Z)
    : VectorXd :=
  normalize_at NormalizeAngle 1
    (col i (UpdateRadar_Zsig u) - UpdateRadar_z_pred u)%M.

(** The predicted sigma points and the residuals of the covariance loop of
    [PredictMeanAndCovariance], as a prediction over [delta_t] forms
    them. *)
Definition predicted_points (llt : MatrixXd -> LLT) (delta_t : R) (u : UKF)
    : MatrixXd :=
  SigmaPointPrediction u (AugmentedSigmaPoints llt u) delta_t.

Definition predicted_residual (NormalizeAngle : R -> R)
    (llt : MatrixXd -> LLT) (delta_t : R) (u : UKF) (i : Z) : VectorXd :=
  normalize_at NormalizeAngle 3
    (col i (predicted_points llt delta_t u)
     - x_ (Prediction NormalizeAngle llt delta_t u))%M.

(** [S] is the [n] by [n] diagonal matrix of the values [d]. *)
Definition diagonal (n : Z) (d : Z -> R) (S : MatrixXd) : Prop :=
  rows S = n /\ cols S = n
  /\ forall i j, (0 <= i < n)%Z -> (0 <= j < n)%Z ->
       S i j = if (i =? j)%Z then d i else 0.

(** The cross-correlation [Tc] and the gain [K] of the two updates, as
    lines 421-440 and 542-563 form them. *)
Definition UpdateLidar_Tc (NormalizeAngle : R -> R) (u : UKF) : MatrixXd :=
  let Zsig := UpdateLidar_Zsig u in
  let z_pred := UpdateLidar_z_pred u in
  let Tc := Zero (n_x_ u) (n_z_laser_ u) in
  let Tc := fill 0.0 Tc in
  for_loop (n_sig_ u)
    (fun i Tc =>
       let z_diff := (col i Zsig - z_pred)%M in
       let x_diff := (col i (Xsig_pred_ u) - x_ u)%M in
       let x_diff := normalize_at NormalizeAngle 3 x_diff in
       (Tc + (at_ (weights_ u) i *: x_diff) * transpose z_diff)%M)
    Tc.

Definition UpdateLidar_K (NormalizeAngle : R -> R)
    (inverse : MatrixXd -> MatrixXd) (u : UKF) : MatrixXd :=
  (UpdateLidar_Tc NormalizeAngle u * inverse (UpdateLidar_S u))%M.

Definition UpdateRadar_Tc (NormalizeAngle : R -> R) (u : UKF) : MatrixXd :=
  let Zsig := UpdateRadar_Zsig u in
  let z_pred := UpdateRadar_z_pred u in
  let Tc := Zero (n_x_ u) (n_z_radar_ u) in
  let Tc := fill 0.0 Tc in
  for_loop (n_sig_ u)
    (fun i Tc =>
       let z_diff := (col i Zsig - z_pred)%M in
       let z_diff := normalize_at NormalizeAngle 1 z_diff in
       let x_diff := (col i (Xsig_pred_ u) - x_ u)%M in
       let x_diff := normalize_at NormalizeAngle 3 x_diff in
       (Tc + (at_ (weights_ u) i *: x_diff) * transpose z_diff)%M)
    Tc.

Definition UpdateRadar_K (NormalizeAngle : R -> R)
    (inverse : MatrixXd -> MatrixXd) (u : UKF) : MatrixXd :=
  (UpdateRadar_Tc NormalizeAngle u
   * inverse (UpdateRadar_S NormalizeAngle u))%M.

(** The innovation of the two updates: the measurement less the predicted
    measurement, the bearing wrapped for the radar. *)
Definition UpdateLidar_z_diff (u : UKF) (meas_package : MeasurementPackage)
    : VectorXd :=
  (raw_measurements_ meas_package - UpdateLidar_z_pred u)%M.

Definition UpdateRadar_z_diff (NormalizeAngle : R -> R) (u : UKF)
    (meas_package : MeasurementPackage) : VectorXd :=
  normalize_at NormalizeAngle 1
    (raw_measurements_ meas_package - UpdateRadar_z_pred u)%M.

(** [A] agrees with its transpose on the leading [n] by [n] block. *)
Definition symmetric (n : Z) (A : MatrixXd) : Prop :=
  forall i j, (0 <= i < n)%Z -> (0 <= j < n)%Z -> A i j = A j i.

(** The members no method assigns: the toggles, the dimensions, the
    spreading parameter and the noise parameters. *)
Definition same_configuration (u u' : UKF) : Prop :=
  use_laser_ u' = use_laser_ u
  /\ use_radar_ u' = use_radar_ u
  /\ std_a_ u' = std_a_ u
  /\ std_yawdd_ u' = std_yawdd_ u
  /\ std_laspx_ u' = std_laspx_ u
  /\ std_laspy_ u' = std_laspy_ u
  /\ std_radr_ u' = std_radr_ u
  /\ std_radphi_ u' = std_radphi_ u
  /\ std_radrd_ u' = std_radrd_ u
  /\ n_x_ u' = n_x_ u
  /\ n_aug_ u' = n_aug_ u
  /\ n_sig_ u' = n_sig_ u
  /\ n_z_radar_ u' = n_z_radar_ u
  /\ n_z_laser_ u' = n_z_laser_ u
  /\ lambda_ u' = lambda_ u
  /\ R_lidar_ u' = R_lidar_ u
  /\ R_radar_ u' = R_radar_ u.

(** The shape of the state and of the covariance. *)
Definition state_shape (u : UKF) : Prop :=
  rows (x_ u) = 5%Z /\ cols (x_ u) = 1%Z
  /\ rows (P_ u) = 5%Z /\ cols (P_ u) = 5%Z.

(** ** Reference instances of the parameters *)

(** Modelled from the spec: [Tools::NormalizeAngle] (tools.cpp is not among
    the sources) is the angle wrap that maps any input to the interval
    (-PI, PI]: the input less the multiple of 2 PI that brings it there. *)
Definition wrap_angle (a : R) : R :=
  a - 2 * PI * IZR (1 - up ((PI - a) / (2 * PI))).

(** Eigen's unblocked in-place Cholesky factorisation: column [k] gets the
    square root of its pivot and the scaled remainder of the column; a
    pivot that is not positive stops the factorisation. *)
Definition llt_step (k : Z) (s : MatrixXd * ComputationInfo)
    : MatrixXd * ComputationInfo :=
  let '(mat, st) := s in
  match st with
  | NumericalIssue => s
  | Success =>
      let x := mat k k - sum_upto k (fun c => mat k c * mat k c) in
      if Rle_dec x 0 then (mat, NumericalIssue)
      else
        (mk (rows mat) (cols mat)
            (fun r c =>
               if (c =? k)%Z then
                 if (r =? k)%Z then sqrt x
                 else if (k <? r)%Z then
                   (mat r k - sum_upto k (fun c' => mat r c' * mat k c'))
                   / sqrt x
                 else mat r c
               else mat r c),
         Success)
  end.

Definition llt_ref (A : MatrixXd) : LLT :=
  let '(mat, st) := for_loop (rows A) llt_step (A, Success) in
  mkLLT (lower mat) st.

(** The inverse by cofactors: the adjugate over the determinant. *)
Definition skip (k i : Z) : Z := if (i <? k)%Z then i else (i + 1)%Z.

Definition minor (i j : Z) (A : MatrixXd) : MatrixXd :=
  mk (rows A - 1) (cols A - 1) (fun r c => A (skip i r) (skip j c)).

Fixpoint det_n (n : nat) (A : MatrixXd) : R :=
  match n with
  | O => 1
  | S m =>
      sum_upto (Z.of_nat n)
        (fun j =>
           (if Z.even j then 1 else -1) * A 0%Z j * det_n m (minor 0 j A))
  end.

Definition determinant (A : MatrixXd) : R := det_n (Z.to_nat (rows A)) A.

Definition inverse_ref (A : MatrixXd) : MatrixXd :=
  mk (rows A) (cols A)
     (fun i j =>
        (if Z.even (i + j) then 1 else -1) * determinant (minor j i A)
        / determinant A).

(** ** Concrete filters and measurements *)

(** A filter with the radar switched off. *)
Definition UKF_laser_only : UKF := set_use_radar_ false UKF_new.

(** A laser-only filter that is tracking an object turning at 1 rad/s. *)
Definition UKF_turning : UKF :=
  set_x_ (of_list [0; 0; 0; 0; 1]) (set_is_initialized_ true UKF_laser_only).

(** A tracking filter whose state covariance has collapsed to zero. *)
Definition UKF_collapsed : UKF := set_P_ (Zero 5 5) UKF_turning.

(** A tracking filter, just after a prediction that left every predicted
    sigma point at the origin. *)
Definition UKF_at_origin : UKF :=
  set_weights_ (set_weights UKF_new)
    (set_Xsig_pred_ (Zero 5 15) (set_is_initialized_ true UKF_new)).

(** A small positive definite matrix, and its Cholesky factor by hand:
    [[4, 2], [2, 5]] = [[2, 0], [1, 2]] [[2, 1], [0, 2]]. *)
Definition A22 : MatrixXd := of_rows 2 [[4; 2]; [2; 5]].

Definition radar_at_4s : MeasurementPackage :=
  mkMeas 4000000 RADAR (of_list [1; 0; 0]).

Definition radar_at_1s : MeasurementPackage :=
  mkMeas 1000000 RADAR (of_list [1; 0; 0]).

Definition laser_at_3s : MeasurementPackage :=
  mkMeas 3000000 LASER (of_list [1; 0.5]).

(** The laser-only filter after its first laser measurement. *)
Definition UKF_tracking : UKF :=
  ProcessMeasurement wrap_angle llt_ref inverse_ref UKF_laser_only
    laser_at_3s.

Definition laser_at_4s : MeasurementPackage :=
  mkMeas 4000000 LASER (of_list [1; 0.5]).

Definition radar_at_3s : MeasurementPackage :=
  mkMeas 3000000 RADAR (of_list [1; 0; 0]).



(** A laser measurement that equals what the filter at the origin
    predicts. *)
Definition laser_as_predicted : MeasurementPackage :=
  mkMeas 1000000 LASER (UpdateLidar_z_pred UKF_at_origin).

(** ** Loops and sums *)

Lemma for_loop_succ {S : Type} (n : Z) (body : Z -> S -> S) (s : S) :
  (0 <= n)%Z -> for_loop (n + 1) body s = body n (for_loop n body s).
Proof.
  intros Hn. unfold for_loop.
  replace (Z.to_nat (n + 1)) with (Z.to_nat n + 1)%nat by lia.
  rewrite seq_app, fold_left_app. cbn [seq fold_left].
  rewrite Nat.add_0_l, Z2Nat.id by assumption. reflexivity.
Qed.

Lemma for_loop_nonpos {S : Type} (n : Z) (body : Z -> S -> S) (s : S) :
  (n <= 0)%Z -> for_loop n body s = s.
Proof.
  intros Hn. unfold for_loop.
  replace (Z.to_nat n) with 0%nat by lia. reflexivity.
Qed.


Lemma for_loop_ind {S : Type} (I : Z -> S -> Prop) (body : Z -> S -> S)
    (s : S) (n : Z) :
  I 0%Z s ->
  (forall i acc, (0 <= i < n)%Z -> I i acc -> I (i + 1)%Z (body i acc)) ->
  (0 <= n)%Z ->
  I n (for_loop n body s).
Proof.
  intros H0 Hstep Hn.
  assert (H : forall k, (0 <= k)%Z -> (k <= n)%Z -> I k (for_loop k body s)).
  { intros k Hk. pattern k. apply natlike_ind; [| | exact Hk].
    - intros _. rewrite for_loop_nonpos by lia. exact H0.
    - intros j Hj IH Hle. unfold Z.succ. rewrite for_loop_succ by lia.
      apply Hstep; [lia | apply IH; lia]. }
  apply H; lia.
Qed.

(** A loop whose [i]-th round writes column [i] only, and writes there
    values that do not depend on the matrix it started from. *)
Lemma for_loop_columns (body : Z -> Matrix -> Matrix) (f : Z -> Z -> R)
    (written : Z -> Prop) (n : Z) (M : Matrix) :
  (forall i A r c, c <> i -> body i A r c = A r c) ->
  (forall i A r, written r -> body i A r i = f r i) ->
  forall r c, (0 <= c < n)%Z -> written r -> for_loop n body M r c = f r c.
Proof.
  intros Hother Hcol r c Hc Hr.
  assert (H : (0 <= n)%Z) by lia.
  revert c Hc.
  apply (for_loop_ind
           (fun k A => forall c, (0 <= c < k)%Z -> coeff A r c = f r c)
           body M n); [intros; lia | | exact H].
  intros i A Hi IH c Hc.
  destruct (Z.eq_dec c i) as [-> | Hne].
  - apply Hcol, Hr.
  - rewrite Hother by assumption. apply IH. lia.
Qed.

(** A loop whose rounds keep the dimensions keeps them. *)
Lemma for_loop_dims (body : Z -> Matrix -> Matrix) (n : Z) (M : Matrix) :
  (forall i A, rows (body i A) = rows A /\ cols (body i A) = cols A) ->
  rows (for_loop n body M) = rows M /\ cols (for_loop n body M) = cols M.
Proof.
  intros Hb. destruct (Z_le_gt_dec 0 n) as [Hn | Hn].
  - apply (for_loop_ind (fun _ A => rows A = rows M /\ cols A = cols M));
      [split; reflexivity | | exact Hn].
    intros i A _ [Hr Hc]. destruct (Hb i A) as [-> ->]. split; assumption.
  - rewrite for_loop_nonpos by lia. split; reflexivity.
Qed.

Lemma for_loop_7 {S : Type} (body : Z -> S -> S) (s : S) :
  for_loop 7 body s
  = body 6%Z (body 5%Z (body 4%Z (body 3%Z (body 2%Z (body 1%Z
      (body 0%Z s)))))).
Proof. reflexivity. Qed.

Lemma epsilon_pos : 0 < epsilon.
Proof. unfold epsilon. apply Rinv_0_lt_compat, pow_lt. lra. Qed.

Lemma for_loop_15 {S : Type} (body : Z -> S -> S) (s : S) :
  for_loop 15 body s
  = body 14%Z (body 13%Z (body 12%Z (body 11%Z (body 10%Z (body 9%Z
      (body 8%Z (body 7%Z (body 6%Z (body 5%Z (body 4%Z (body 3%Z
         (body 2%Z (body 1%Z (body 0%Z s)))))))))))))).
Proof. reflexivity. Qed.

Lemma sum_upto_1 (f : Z -> R) : sum_upto 1 f = 0 + f 0%Z.
Proof. reflexivity. Qed.

Lemma sum_upto_2 (f : Z -> R) : sum_upto 2 f = 0 + f 0%Z + f 1%Z.
Proof. reflexivity. Qed.

Lemma sum_upto_3 (f : Z -> R) : sum_upto 3 f = 0 + f 0%Z + f 1%Z + f 2%Z.
Proof. reflexivity. Qed.

Lemma sum_upto_7 (f : Z -> R) :
  sum_upto 7 f = 0 + f 0%Z + f 1%Z + f 2%Z + f 3%Z + f 4%Z + f 5%Z + f 6%Z.
Proof. reflexivity. Qed.

Lemma sum_upto_15 (f : Z -> R) :
  sum_upto 15 f
  = 0 + f 0%Z + f 1%Z + f 2%Z + f 3%Z + f 4%Z + f 5%Z + f 6%Z + f 7%Z
    + f 8%Z + f 9%Z + f 10%Z + f 11%Z + f 12%Z + f 13%Z + f 14%Z.
Proof. reflexivity. Qed.

Lemma sum_upto_succ (n : Z) (f : Z -> R) :
  (0 <= n)%Z -> sum_upto (n + 1) f = sum_upto n f + f n.
Proof.
  intros Hn. unfold sum_upto. rewrite for_loop_succ by assumption.
  reflexivity.
Qed.

Lemma sum_upto_nonpos (n : Z) (f : Z -> R) :
  (n <= 0)%Z -> sum_upto n f = 0.
Proof. intros Hn. unfold sum_upto. apply for_loop_nonpos, Hn. Qed.

(** Induction up to a bound, the scheme of the sum lemmas. *)
Lemma upto_ind (P : Z -> Prop) (n : Z) :
  (0 <= n)%Z ->
  P 0%Z -> (forall k, (0 <= k < n)%Z -> P k -> P (k + 1)%Z) -> P n.
Proof.
  intros Hn H0 Hs.
  assert (H : forall k, (0 <= k)%Z -> (k <= n)%Z -> P k).
  { intros k Hk. pattern k. apply natlike_ind; [auto | | exact Hk].
    intros j Hj IH Hle. apply Hs; [lia | apply IH; lia]. }
  apply H; lia.
Qed.

Ltac sum_induction n :=
  let Hn := fresh "Hn" in
  destruct (Z_le_gt_dec 0 n) as [Hn | Hn];
  [ pattern n; apply upto_ind; [exact Hn | | ]
  | rewrite ?sum_upto_nonpos by lia ].

Lemma sum_upto_ext (n : Z) (f g : Z -> R) :
  (forall i, (0 <= i < n)%Z -> f i = g i) -> sum_upto n f = sum_upto n g.
Proof.
  intros Hfg. destruct (Z_le_gt_dec 0 n) as [Hn | Hn];
    [| rewrite !sum_upto_nonpos by lia; reflexivity].
  revert Hfg. pattern n. apply upto_ind; [exact Hn | |].
  - intros _. rewrite !sum_upto_nonpos by lia. reflexivity.
  - intros k Hk IH Hfg. rewrite !sum_upto_succ by lia.
    rewrite IH, Hfg by (try intros; try apply Hfg; lia). reflexivity.
Qed.

Lemma sum_upto_scal (n : Z) (c : R) (f : Z -> R) :
  sum_upto n (fun i => c * f i) = c * sum_upto n f.
Proof.
  sum_induction n; [| | ring].
  - rewrite !sum_upto_nonpos by lia. ring.
  - intros k Hk IH. rewrite !sum_upto_succ by lia. rewrite IH. ring.
Qed.

Lemma sum_upto_plus (n : Z) (f g : Z -> R) :
  sum_upto n (fun i => f i + g i) = sum_upto n f + sum_upto n g.
Proof.
  sum_induction n; [| | ring].
  - rewrite !sum_upto_nonpos by lia. ring.
  - intros k Hk IH. rewrite !sum_upto_succ by lia. rewrite IH. ring.
Qed.

Lemma sum_upto_zero (n : Z) : sum_upto n (fun _ => 0) = 0.
Proof.
  sum_induction n; [| | reflexivity].
  - rewrite !sum_upto_nonpos by lia. ring.
  - intros k Hk IH. rewrite !sum_upto_succ by lia. rewrite IH. ring.
Qed.

Lemma sum_upto_swap (n m : Z) (f : Z -> Z -> R) :
  sum_upto n (fun i => sum_upto m (fun j => f i j))
  = sum_upto m (fun j => sum_upto n (fun i => f i j)).
Proof.
  assert (Hz : forall k, (k <= 0)%Z ->
            0 = sum_upto m (fun j => sum_upto k (fun i => f i j))).
  { intros k Hk. symmetry.
    rewrite (sum_upto_ext m _ (fun _ => 0)), sum_upto_zero; [reflexivity |].
    intros. apply sum_upto_nonpos, Hk. }
  sum_induction n; [| | apply Hz; lia].
  - rewrite sum_upto_nonpos by lia. apply Hz. lia.
  - intros k Hk IH. rewrite sum_upto_succ, IH by lia.
    rewrite <- sum_upto_plus. apply sum_upto_ext. intros j _.
    rewrite sum_upto_succ by lia. reflexivity.
Qed.

Lemma sum_upto_delta (n k : Z) (f : Z -> R) :
  (0 <= k < n)%Z ->
  sum_upto n (fun i => (if (k =? i)%Z then 1 else 0) * f i) = f k.
Proof.
  intros Hk.
  assert (H : forall m, (0 <= m)%Z ->
            sum_upto m (fun i => (if (k =? i)%Z then 1 else 0) * f i)
            = if (k <? m)%Z then f k else 0).
  { intros m Hm. pattern m. apply upto_ind; [exact Hm | |].
    - rewrite sum_upto_nonpos by lia.
      destruct (Z.ltb_spec k 0); [lia | reflexivity].
    - intros j Hj IH. rewrite sum_upto_succ, IH by lia.
      destruct (Z.ltb_spec k j), (Z.ltb_spec k (j + 1)), (Z.eqb_spec k j);
        try lia; subst; ring. }
  rewrite H by lia. destruct (Z.ltb_spec k n); [reflexivity | lia].
Qed.

(** A loop that adds one matrix per round. *)
Lemma for_loop_accumulate (F : Z -> Matrix) (A0 : Matrix) (n r c : Z) :
  (0 <= n)%Z ->
  for_loop n (fun i A => (A + F i)%M) A0 r c
  = A0 r c + sum_upto n (fun i => F i r c).
Proof.
  intros Hn.
  apply (for_loop_ind
           (fun k A => coeff A r c = A0 r c + sum_upto k (fun i => F i r c)));
    [| | exact Hn].
  - rewrite sum_upto_nonpos by lia. ring.
  - intros i A Hi IH. rewrite sum_upto_succ by lia.
    cbn [add coeff]. rewrite IH. ring.
Qed.

(** ** Quadratic forms *)

(** The quadratic form of a right inverse [T] of [S] at [z] is the
    quadratic form of [S] at [T z]. *)
Lemma quadratic_form_inverse (n : Z) (S T : Z -> Z -> R) (z : Z -> R) :
  (forall i k, (0 <= i < n)%Z -> (0 <= k < n)%Z ->
     sum_upto n (fun j => S i j * T j k) = if (i =? k)%Z then 1 else 0) ->
  let y := fun i => sum_upto n (fun k => T i k * z k) in
  sum_upto n (fun k => sum_upto n (fun j => z j * T j k) * z k)
  = sum_upto n (fun i => sum_upto n (fun j => y i * S i j * y j)).
Proof.
  intros HST y.
  assert (HSy : forall i, (0 <= i < n)%Z ->
            sum_upto n (fun j => S i j * y j) = z i).
  { intros i Hi. unfold y.
    rewrite (sum_upto_ext n _
               (fun j => sum_upto n (fun k => S i j * T j k * z k))).
    2:{ intros j _. rewrite <- sum_upto_scal. apply sum_upto_ext.
        intros; ring. }
    rewrite sum_upto_swap.
    rewrite (sum_upto_ext n _
               (fun k => (if (i =? k)%Z then 1 else 0) * z k)).
    2:{ intros k Hk. rewrite <- (HST i k) by assumption.
        rewrite Rmult_comm, <- sum_upto_scal. apply sum_upto_ext.
        intros; ring. }
    apply sum_upto_delta, Hi. }
  transitivity (sum_upto n (fun i => y i * z i)).
  - rewrite (sum_upto_ext n _
               (fun k => sum_upto n (fun j => z j * T j k * z k))).
    2:{ intros k _. rewrite Rmult_comm, <- sum_upto_scal. apply sum_upto_ext.
        intros; ring. }
    rewrite sum_upto_swap. apply sum_upto_ext. intros j _. unfold y.
    rewrite Rmult_comm, <- sum_upto_scal. apply sum_upto_ext. intros; ring.
  - apply sum_upto_ext. intros i Hi. rewrite <- (HSy i Hi).
    rewrite <- sum_upto_scal. apply sum_upto_ext. intros; ring.
Qed.

Lemma all_zero_or_not (n : Z) (y : Z -> R) :
  (forall i, (0 <= i < n)%Z -> y i = 0)
  \/ exists i, (0 <= i < n)%Z /\ y i <> 0.
Proof.
  destruct (Z_le_gt_dec 0 n) as [Hn | Hn]; [| left; intros; lia].
  pattern n. apply upto_ind; [exact Hn | left; intros; lia |].
  intros k Hk [IH | (i & Hi & Hy)].
  - destruct (Req_dec (y k) 0) as [H0 | H0].
    + left. intros i Hi. destruct (Z.eq_dec i k) as [-> | Hne];
        [exact H0 | apply IH; lia].
    + right. exists k. split; [lia | exact H0].
  - right. exists i. split; [lia | exact Hy].
Qed.

(** The statistic [z^T T z] is not negative when [T] inverts a positive
    definite matrix. *)
Lemma positive_definite_inverse_nonneg (n : Z) (S T : MatrixXd)
    (z : VectorXd) :
  positive_definite n S ->
  inverse_of n S T ->
  rows z = n ->
  0 <= (transpose z * T * z)%M 0%Z 0%Z.
Proof.
  intros Hpd (HrT & HcT & HcS & Hinv) Hz.
  cbn [mul transpose coeff rows cols]. rewrite HcT, Hz.
  change (0 <= sum_upto n
                 (fun k => sum_upto n (fun j => at_ z j * T j k) * at_ z k)).
  rewrite (quadratic_form_inverse n S T (at_ z)).
  2:{ intros i k Hi Hk. specialize (Hinv i k Hi Hk).
      cbn [mul Identity coeff rows cols] in Hinv. rewrite HcS in Hinv.
      exact Hinv. }
  cbv zeta.
  destruct (all_zero_or_not n
              (fun i => sum_upto n (fun k => T i k * at_ z k)))
    as [H0 | Hex].
  - right. symmetry.
    rewrite (sum_upto_ext n _ (fun _ => 0)); [apply sum_upto_zero |].
    intros i Hi. rewrite (sum_upto_ext n _ (fun _ => 0));
      [apply sum_upto_zero |].
    intros j _. rewrite (H0 i Hi). ring.
  - left.
    apply (Hpd (mk n 1 (fun i _ => sum_upto n (fun k => T i k * at_ z k)))).
    exact Hex.
Qed.

(** *** Diagonal matrices and the reference inverse *)

Lemma diagonal_positive_definite_2 (d : Z -> R) (S : MatrixXd) :
  diagonal 2 d S -> 0 < d 0%Z -> 0 < d 1%Z -> positive_definite 2 S.
Proof.
  intros (_ & _ & HS) H0 H1 v (i & Hi & Hv).
  rewrite sum_upto_2, !sum_upto_2. rewrite !HS by lia. cbn.
  pose proof (Rle_0_sqr (at_ v 0)) as A0.
  pose proof (Rle_0_sqr (at_ v 1)) as A1.
  assert (0 < Rsqr (at_ v i)) as Ai by (apply Rsqr_pos_lt, Hv).
  unfold Rsqr in *.
  assert (i = 0 \/ i = 1)%Z as [-> | ->] by lia; nra.
Qed.

Lemma diagonal_positive_definite_3 (d : Z -> R) (S : MatrixXd) :
  diagonal 3 d S -> 0 < d 0%Z -> 0 < d 1%Z -> 0 < d 2%Z ->
  positive_definite 3 S.
Proof.
  intros (_ & _ & HS) H0 H1 H2 v (i & Hi & Hv).
  rewrite sum_upto_3, !sum_upto_3. rewrite !HS by lia. cbn.
  pose proof (Rle_0_sqr (at_ v 0)) as A0.
  pose proof (Rle_0_sqr (at_ v 1)) as A1.
  pose proof (Rle_0_sqr (at_ v 2)) as A2.
  assert (0 < Rsqr (at_ v i)) as Ai by (apply Rsqr_pos_lt, Hv).
  unfold Rsqr in *.
  assert (i = 0 \/ i = 1 \/ i = 2)%Z as [-> | [-> | ->]] by lia; nra.
Qed.

Lemma inverse_ref_diagonal_2 (d : Z -> R) (S : MatrixXd) :
  diagonal 2 d S -> d 0%Z <> 0 -> d 1%Z <> 0 ->
  inverse_of 2 S (inverse_ref S).
Proof.
  intros (Hr & Hc & HS) H0 H1.
  split; [exact Hr |]. split; [exact Hc |]. split; [exact Hc |].
  intros i j Hi Hj.
  cbn [mul coeff rows cols Identity]. rewrite Hc, sum_upto_2.
  unfold inverse_ref, determinant, minor. cbn [coeff rows cols].
  rewrite Hr. change (Z.to_nat 2) with 2%nat.
  change (Z.to_nat (2 - 1)) with 1%nat.
  cbn [det_n Z.of_nat Pos.of_succ_nat Pos.succ].
  rewrite !sum_upto_2, !sum_upto_1. unfold skip.
  assert (i = 0 \/ i = 1)%Z as [-> | ->] by lia;
    assert (j = 0 \/ j = 1)%Z as [-> | ->] by lia; cbn;
    rewrite !HS by lia; cbn; field; auto.
Qed.

Lemma inverse_ref_diagonal_3 (d : Z -> R) (S : MatrixXd) :
  diagonal 3 d S -> d 0%Z <> 0 -> d 1%Z <> 0 -> d 2%Z <> 0 ->
  inverse_of 3 S (inverse_ref S).
Proof.
  intros (Hr & Hc & HS) H0 H1 H2.
  split; [exact Hr |]. split; [exact Hc |]. split; [exact Hc |].
  intros i j Hi Hj.
  cbn [mul coeff rows cols Identity]. rewrite Hc, sum_upto_3.
  unfold inverse_ref, determinant, minor. cbn [coeff rows cols].
  rewrite Hr. change (Z.to_nat 3) with 3%nat.
  change (Z.to_nat (3 - 1)) with 2%nat.
  cbn [det_n Z.of_nat Pos.of_succ_nat Pos.succ].
  rewrite !sum_upto_3, !sum_upto_2, !sum_upto_1. unfold skip.
  assert (i = 0 \/ i = 1 \/ i = 2)%Z as [-> | [-> | ->]] by lia;
    assert (j = 0 \/ j = 1 \/ j = 2)%Z as [-> | [-> | ->]] by lia; cbn;
    rewrite !HS by lia; cbn; field; auto.
Qed.

(** *** The reference instances do what they stand for *)

Lemma wrap_angle_range (a : R) : - PI < wrap_angle a <= PI.
Proof.
  unfold wrap_angle. pose proof PI_RGT_0 as Hpi.
  destruct (archimed ((PI - a) / (2 * PI))) as [Hlo Hhi].
  rewrite minus_IZR.
  set (k := IZR (up ((PI - a) / (2 * PI)))) in *.
  assert (H : (PI - a) / (2 * PI) * (2 * PI) = PI - a) by (field; lra).
  split.
  - assert (PI - a < k * (2 * PI)); [| lra].
    rewrite <- H. apply Rmult_lt_compat_r; lra.
  - assert (k * (2 * PI) <= PI - a + 2 * PI); [| lra].
    rewrite <- H.
    replace ((PI - a) / (2 * PI) * (2 * PI) + 2 * PI)
      with (((PI - a) / (2 * PI) + 1) * (2 * PI)) by ring.
    apply Rmult_le_compat_r; lra.
Qed.

Lemma sqrt_4 : sqrt 4 = 2.
Proof. replace 4 with (2 * 2) by lra. apply sqrt_square. lra. Qed.

Lemma llt_step_positive (k : Z) (mat : MatrixXd) (x : R) :
  mat k k - sum_upto k (fun c => mat k c * mat k c) = x ->
  0 < x ->
  llt_step k (mat, Success)
  = (mk (rows mat) (cols mat)
        (fun r c =>
           if (c =? k)%Z then
             if (r =? k)%Z then sqrt x
             else if (k <? r)%Z then
               (mat r k - sum_upto k (fun c' => mat r c' * mat k c'))
               / sqrt x
             else mat r c
           else mat r c),
     Success).
Proof.
  intros Hx Hpos. unfold llt_step. rewrite Hx.
  destruct (Rle_dec x 0) as [H | _]; [lra | reflexivity].
Qed.

Example llt_ref_2x2 :
  let F := llt_ref A22 in
  info F = Success
  /\ matrixL F 0%Z 0%Z = 2 /\ matrixL F 0%Z 1%Z = 0
  /\ matrixL F 1%Z 0%Z = 1 /\ matrixL F 1%Z 1%Z = 2.
Proof.
  unfold llt_ref. change (rows A22) with 2%Z.
  change (for_loop 2 llt_step (A22, Success))
    with (llt_step 1 (llt_step 0 (A22, Success))).
  rewrite (llt_step_positive 0 A22 4) by (cbn; lra).
  rewrite (llt_step_positive 1 _ 4)
    by (try rewrite sum_upto_1; cbn; rewrite ?sqrt_4; lra).
  cbn -[sum_upto]. rewrite ?sum_upto_1, ?sum_upto_nonpos by lia.
  cbn. rewrite ?sqrt_4. repeat split; lra.
Qed.

(** On a diagonal matrix with positive entries the reference factorisation
    succeeds and returns the diagonal of the square roots. *)
Lemma llt_ref_diagonal (n : Z) (d : Z -> R) (A : MatrixXd) :
  (0 <= n)%Z ->
  diagonal n d A ->
  (forall i, (0 <= i < n)%Z -> 0 < d i) ->
  info (llt_ref A) = Success
  /\ forall r c, (0 <= r < n)%Z -> (0 <= c < n)%Z ->
       matrixL (llt_ref A) r c = if (r =? c)%Z then sqrt (d r) else 0.
Proof.
  intros Hn (Hr & Hc & HA) Hd.
  assert (H : exists M,
            for_loop n llt_step (A, Success) = (M, Success)
            /\ rows M = n /\ cols M = n
            /\ forall r c, (0 <= r < n)%Z -> (0 <= c < n)%Z ->
                 M r c = if (r =? c)%Z then sqrt (d r) else 0).
  { assert (Hk : exists M,
              for_loop n llt_step (A, Success) = (M, Success)
              /\ rows M = n /\ cols M = n
              /\ forall r c, (0 <= r < n)%Z -> (0 <= c < n)%Z ->
                   M r c = if (r =? c)%Z
                           then if (c <? n)%Z then sqrt (d r) else d r
                           else 0).
    { apply (for_loop_ind
               (fun k s =>
                  exists M, s = (M, Success)
                    /\ rows M = n /\ cols M = n
                    /\ forall r c, (0 <= r < n)%Z -> (0 <= c < n)%Z ->
                         M r c = if (r =? c)%Z
                                 then if (c <? k)%Z then sqrt (d r) else d r
                                 else 0)
               llt_step (A, Success) n); [| | exact Hn].
      - exists A. split; [reflexivity |]. split; [exact Hr |].
        split; [exact Hc |]. intros r c Hr' Hc'. rewrite HA by lia.
        destruct (Z.ltb_spec c 0); [lia | reflexivity].
      - intros k s Hk (M & -> & HrM & HcM & HM).
        assert (Hsum : forall r, (0 <= r < n)%Z -> r <> k ->
                  sum_upto k (fun c' => M r c' * M k c') = 0).
        { intros r Hr' Hne.
          rewrite (sum_upto_ext k _ (fun _ => 0)); [apply sum_upto_zero |].
          intros c' Hc'. rewrite (HM k c') by lia.
          destruct (Z.eqb_spec k c'); [lia | ring]. }
        assert (Hpiv : M k k - sum_upto k (fun c => M k c * M k c) = d k).
        { rewrite (sum_upto_ext k _ (fun _ => 0)), sum_upto_zero.
          - rewrite HM by lia. rewrite Z.eqb_refl.
            destruct (Z.ltb_spec k k); [lia | ring].
          - intros c' Hc'. rewrite (HM k c') by lia.
            destruct (Z.eqb_spec k c'); [lia | ring]. }
        eexists.
        split; [apply (llt_step_positive k M (d k) Hpiv), Hd; lia |].
        split; [exact HrM |]. split; [exact HcM |].
        intros r c Hr' Hc'. cbn [coeff].
        destruct (Z.eqb_spec c k) as [-> | Hck].
        + destruct (Z.eqb_spec r k) as [-> | Hrk].
          * destruct (Z.ltb_spec k (k + 1)); [reflexivity | lia].
          * destruct (Z.ltb_spec k r).
            -- rewrite Hsum by lia. rewrite HM by lia.
               destruct (Z.eqb_spec r k); [lia |]. unfold Rdiv. ring.
            -- rewrite HM by lia. destruct (Z.eqb_spec r k); [lia | reflexivity].
        + rewrite HM by lia. destruct (Z.eqb_spec r c) as [-> | Hrc];
            [| reflexivity].
          destruct (Z.ltb_spec c k), (Z.ltb_spec c (k + 1)); try lia;
            reflexivity. }
    destruct Hk as (M & HM1 & HM2 & HM3 & HM4). exists M.
    split; [exact HM1 |]. split; [exact HM2 |]. split; [exact HM3 |].
    intros r c Hr' Hc'. rewrite HM4 by lia.
    destruct (Z.ltb_spec c n); [reflexivity | lia]. }
  destruct H as (M & HM & _ & _ & HMe).
  unfold llt_ref. rewrite Hr, HM. cbn [info matrixL].
  split; [reflexivity |].
  intros r c Hr' Hc'. cbn [lower coeff]. rewrite HMe by lia.
  destruct (Z.leb_spec c r); [reflexivity |].
  destruct (Z.eqb_spec r c); [lia | reflexivity].
Qed.

Lemma wrap_angle_0 : wrap_angle 0 = 0.
Proof.
  unfold wrap_angle. pose proof PI_RGT_0 as Hpi.
  replace ((PI - 0) / (2 * PI)) with (/ 2) by (field; lra).
  replace (up (/ 2)) with 1%Z by (apply tech_up; lra).
  change (1 - 1)%Z with 0%Z. lra.
Qed.

(** ** Assignments and the members they leave alone *)

Lemma NIS_laser_set (x : R) (u : UKF) : NIS_laser_ (set_NIS_laser_ x u) = x.
Proof. destruct u; reflexivity. Qed.

Lemma NIS_radar_set (x : R) (u : UKF) : NIS_radar_ (set_NIS_radar_ x u) = x.
Proof. destruct u; reflexivity. Qed.

(** ** The methods, step by step *)

Section Behaviour.

Variable NormalizeAngle : R -> R.
Variable llt : MatrixXd -> LLT.
Variable inverse : MatrixXd -> MatrixXd.

Local Abbreviation ProcessMeasurement' :=
  (ProcessMeasurement NormalizeAngle llt inverse).
Local Abbreviation Prediction' := (Prediction NormalizeAngle llt).

(** In the uninitialised state a call writes [time_us_] and, when the
    measurement's sensor is enabled, [x_] and [is_initialized_]; nothing
    else. *)
Lemma ProcessMeasurement_uninitialized (u : UKF) (m : MeasurementPackage) :
  is_initialized_ u = false ->
  let z := raw_measurements_ m in
  ProcessMeasurement' u m
  = if sensor_enabled u (sensor_type_ m) then
      set_time_us_ (timestamp_ m)
        (set_is_initialized_ true
           (set_x_
              match sensor_type_ m with
              | RADAR => of_list [at_ z 0 * cos (at_ z 1);
                                  at_ z 0 * sin (at_ z 1); at_ z 2; 0; 0]
              | LASER => of_list [at_ z 0; at_ z 1; 0; 0; 0]
              end u))
    else set_time_us_ (timestamp_ m) u.
Proof.
  intros Hi z. subst z.
  destruct u, m as [t s z]; cbn in Hi; subst.
  unfold ProcessMeasurement; cbn.
  destruct s; cbn; rewrite ?andb_false_r, ?andb_true_r; cbn.
  - destruct use_laser_0; reflexivity.
  - destruct use_radar_0; reflexivity.
Qed.

(** The members a prediction leaves alone. *)
Lemma Prediction_frame (delta_t : R) (u : UKF) :
  let u' := Prediction' delta_t u in
  is_initialized_ u' = is_initialized_ u
  /\ use_laser_ u' = use_laser_ u
  /\ use_radar_ u' = use_radar_ u
  /\ time_us_ u' = time_us_ u
  /\ NIS_radar_ u' = NIS_radar_ u
  /\ NIS_laser_ u' = NIS_laser_ u.
Proof. destruct u; cbn. repeat split. Qed.

(** Past initialisation, a measurement of a disabled sensor runs the
    prediction and stops there. *)
Lemma ProcessMeasurement_ready_disabled (u : UKF) (m : MeasurementPackage) :
  is_initialized_ u = true ->
  sensor_enabled u (sensor_type_ m) = false ->
  ProcessMeasurement' u m
  = Prediction' (IZR (timestamp_ m - time_us_ u) / 1000000.0)
      (set_time_us_ (timestamp_ m) u).
Proof.
  intros Hi He. unfold ProcessMeasurement. rewrite Hi. cbn [negb].
  cbv zeta.
  destruct (Prediction_frame
              (IZR (timestamp_ m - time_us_ u) / 1000000.0)
              (set_time_us_ (timestamp_ m) u))
    as (_ & Hl & Hr & _).
  rewrite Hl, Hr.
  replace (use_radar_ (set_time_us_ (timestamp_ m) u)) with (use_radar_ u)
    by (destruct u; reflexivity).
  replace (use_laser_ (set_time_us_ (timestamp_ m) u)) with (use_laser_ u)
    by (destruct u; reflexivity).
  destruct (sensor_type_ m); cbn in He; rewrite He; cbn;
    rewrite ?andb_false_r; reflexivity.
Qed.

Lemma UpdateRadar_is_initialized (u : UKF) (m : MeasurementPackage) :
  is_initialized_ (UpdateRadar NormalizeAngle inverse u m)
  = is_initialized_ u.
Proof. destruct u; reflexivity. Qed.

Lemma UpdateLidar_is_initialized (u : UKF) (m : MeasurementPackage) :
  is_initialized_ (UpdateLidar NormalizeAngle inverse u m)
  = is_initialized_ u.
Proof. destruct u; reflexivity. Qed.

(** Ready is absorbing. *)
Lemma ProcessMeasurement_stays_initialized (u : UKF)
    (m : MeasurementPackage) :
  is_initialized_ u = true ->
  is_initialized_ (ProcessMeasurement' u m) = true.
Proof.
  intros Hi. unfold ProcessMeasurement. rewrite Hi. cbn [negb]. cbv zeta.
  assert (Hp : is_initialized_
                 (Prediction' (IZR (timestamp_ m - time_us_ u) / 1000000.0)
                    (set_time_us_ (timestamp_ m) u)) = true).
  { destruct (Prediction_frame
                (IZR (timestamp_ m - time_us_ u) / 1000000.0)
                (set_time_us_ (timestamp_ m) u)) as (-> & _).
    destruct u; exact Hi. }
  destruct (_ && _).
  - rewrite UpdateRadar_is_initialized. exact Hp.
  - destruct (_ && _).
    + rewrite UpdateLidar_is_initialized. exact Hp.
    + exact Hp.
Qed.

(** Until the filter is initialised, the state and the covariance are
    those of the constructor. *)
Lemma reachable_uninitialized (u : UKF) :
  reachable NormalizeAngle llt inverse u ->
  is_initialized_ u = false ->
  x_ u = Zero 5 1 /\ P_ u = Identity 5 5.
Proof.
  induction 1 as [| b u Hu IH | b u Hu IH | u m Hu IH]; intros Hi.
  - split; reflexivity.
  - destruct u; cbn in *. apply IH, Hi.
  - destruct u; cbn in *. apply IH, Hi.
  - destruct (is_initialized_ u) eqn:Hiu.
    + rewrite ProcessMeasurement_stays_initialized in Hi by exact Hiu.
      discriminate.
    + rewrite (ProcessMeasurement_uninitialized u m Hiu) in Hi |- *.
      destruct (sensor_enabled u (sensor_type_ m)).
      * destruct u; cbn in Hi. discriminate.
      * destruct (IH eq_refl) as [Hx HP]. destruct u; cbn in *.
        split; assumption.
Qed.

Lemma AugmentedSigmaPoints_dims (u : UKF) :
  rows (AugmentedSigmaPoints llt u) = n_aug_ u
  /\ cols (AugmentedSigmaPoints llt u) = n_sig_ u.
Proof.
  unfold AugmentedSigmaPoints.
  match goal with
  | |- rows (for_loop ?n ?b ?M) = _ /\ _ =>
      destruct (for_loop_dims b n M) as [-> ->]
  end; [| split; reflexivity].
  intros i A. split; reflexivity.
Qed.

(** The columns the loop of [AugmentedSigmaPoints] leaves behind. *)
Lemma AugmentedSigmaPoints_columns (u : UKF) :
  n_aug_ u = 7%Z ->
  let x_aug := x_aug_of u in
  let L := matrixL (llt (P_aug_of u)) in
  let s := sqrt (lambda_ u + IZR (n_aug_ u)) in
  let Xsig_aug := AugmentedSigmaPoints llt u in
  (forall r, Xsig_aug r 0%Z = at_ x_aug r)
  /\ (forall i r, (1 <= i <= 7)%Z ->
        Xsig_aug r i = at_ x_aug r + s * L r (i - 1)%Z)
  /\ (forall i r, (8 <= i <= 14)%Z ->
        Xsig_aug r i = at_ x_aug r - s * L r (i - 8)%Z).
Proof.
  intros Ha x_aug L s Xsig_aug.
  subst s Xsig_aug. unfold AugmentedSigmaPoints.
  fold x_aug L. rewrite Ha, for_loop_7.
  split; [reflexivity |]. split.
  - intros i r Hi.
    assert (i = 1 \/ i = 2 \/ i = 3 \/ i = 4 \/ i = 5 \/ i = 6 \/ i = 7)%Z
      as [-> | [-> | [-> | [-> | [-> | [-> | ->]]]]]] by lia; reflexivity.
  - intros i r Hi.
    assert (i = 8 \/ i = 9 \/ i = 10 \/ i = 11 \/ i = 12 \/ i = 13
            \/ i = 14)%Z
      as [-> | [-> | [-> | [-> | [-> | [-> | ->]]]]]] by lia; reflexivity.
Qed.

(** Round [i] of the loop of [SigmaPointPrediction] decides column [i]. *)
Lemma SigmaPointPrediction_column (u : UKF) (Xsig_aug : MatrixXd)
    (delta_t : R) (r i : Z) :
  (0 <= i < n_sig_ u)%Z -> (0 <= r < 5)%Z ->
  SigmaPointPrediction u Xsig_aug delta_t r i
  = SigmaPointPrediction_body Xsig_aug delta_t i (Zero 0 0) r i.
Proof.
  intros Hi Hr. unfold SigmaPointPrediction.
  apply (for_loop_columns _
           (fun r c =>
              SigmaPointPrediction_body Xsig_aug delta_t c (Zero 0 0) r c)
           (fun r => (0 <= r < 5)%Z)); [ | | exact Hi | exact Hr].
  - intros k A r' c Hne. cbn.
    replace (c =? k)%Z with false by (symmetry; apply Z.eqb_neq; exact Hne).
    rewrite !andb_false_r. reflexivity.
  - intros k A r' Hr'. cbn. rewrite Z.eqb_refl, !andb_true_r.
    assert (r' = 0 \/ r' = 1 \/ r' = 2 \/ r' = 3 \/ r' = 4)%Z
      as [-> | [-> | [-> | [-> | ->]]]] by lia; reflexivity.
Qed.

Lemma SigmaPointPrediction_dims (u : UKF) (X : MatrixXd) (delta_t : R) :
  rows (SigmaPointPrediction u X delta_t) = n_x_ u
  /\ cols (SigmaPointPrediction u X delta_t) = n_sig_ u.
Proof.
  unfold SigmaPointPrediction.
  apply (for_loop_dims _ (n_sig_ u) (Zero (n_x_ u) (n_sig_ u))).
  intros i A. split; reflexivity.
Qed.

Lemma SigmaPointPrediction_yaw (u : UKF) (X : MatrixXd) (delta_t : R)
    (i : Z) :
  (0 <= i < n_sig_ u)%Z ->
  SigmaPointPrediction u X delta_t 3%Z i
  = X 3%Z i + X 4%Z i * delta_t + 0.5 * X 6%Z i * delta_t * delta_t.
Proof.
  intros Hi. rewrite SigmaPointPrediction_column by lia.
  cbn. rewrite Z.eqb_refl. reflexivity.
Qed.

Lemma Prediction_x (delta_t : R) (u : UKF) :
  x_ (Prediction' delta_t u)
  = (fill 0.0 (Zero (n_x_ u) 1)
     + SigmaPointPrediction u (AugmentedSigmaPoints llt u) delta_t
       * set_weights u)%M.
Proof. destruct u; reflexivity. Qed.

Lemma Prediction_weights (delta_t : R) (u : UKF) :
  weights_ (Prediction' delta_t u) = set_weights u.
Proof. destruct u; reflexivity. Qed.

(** The predicted heading is the heading advanced by the turn rate,
    whatever factor the factorisation returned. *)
Lemma Prediction_yaw (delta_t : R) (u : UKF) :
  n_aug_ u = 7%Z ->
  n_sig_ u = 15%Z ->
  lambda_ u = -4 ->
  at_ (x_ (Prediction' delta_t u)) 3
  = at_ (x_ u) 3 + at_ (x_ u) 4 * delta_t.
Proof.
  intros Ha Hs Hl. rewrite Prediction_x. unfold at_.
  cbn [add mul coeff fill Zero rows cols].
  destruct (SigmaPointPrediction_dims u (AugmentedSigmaPoints llt u) delta_t)
    as [_ ->].
  rewrite Hs. unfold sum_upto. rewrite for_loop_15.
  rewrite !SigmaPointPrediction_yaw by lia.
  destruct (AugmentedSigmaPoints_columns u Ha) as (H0 & Hp & Hm).
  rewrite !H0.
  rewrite !(Hp 1%Z), !(Hp 2%Z), !(Hp 3%Z), !(Hp 4%Z), !(Hp 5%Z),
    !(Hp 6%Z), !(Hp 7%Z) by lia.
  rewrite !(Hm 8%Z), !(Hm 9%Z), !(Hm 10%Z), !(Hm 11%Z), !(Hm 12%Z),
    !(Hm 13%Z), !(Hm 14%Z) by lia.
  unfold set_weights. rewrite Hs, Hl, Ha. cbn.
  replace 0.5 with (/ 2) by lra. replace 0.0 with 0 by lra.
  field.
Qed.

Lemma SigmaPointPrediction_speed (u : UKF) (X : MatrixXd) (delta_t : R)
    (i : Z) :
  (0 <= i < n_sig_ u)%Z ->
  SigmaPointPrediction u X delta_t 2%Z i = X 2%Z i + X 5%Z i * delta_t.
Proof.
  intros Hi. rewrite SigmaPointPrediction_column by lia.
  cbn. rewrite Z.eqb_refl. reflexivity.
Qed.

Lemma Prediction_P_coeff (delta_t : R) (u : UKF) (r c : Z) :
  (0 <= n_sig_ u)%Z ->
  P_ (Prediction' delta_t u) r c
  = 0.0
    + sum_upto (n_sig_ u)
        (fun i => at_ (set_weights u) i
                  * at_ (predicted_residual NormalizeAngle llt delta_t u i) r
                  * at_ (predicted_residual NormalizeAngle llt delta_t u i) c).
Proof.
  intros Hn.
  transitivity
    (for_loop (n_sig_ u)
       (fun i A =>
          (A + (at_ (set_weights u) i
                *: predicted_residual NormalizeAngle llt delta_t u i)
               * transpose
                   (predicted_residual NormalizeAngle llt delta_t u i))%M)
       (fill 0.0 (Zero (n_x_ u) (n_x_ u))) r c).
  { destruct u; reflexivity. }
  rewrite for_loop_accumulate by exact Hn.
  cbn [fill coeff]. f_equal. apply sum_upto_ext. intros i _.
  cbn [mul scale transpose coeff cols rows].
  unfold predicted_residual at 1. unfold normalize_at at 1.
  cbn [set_coeff cols sub col].
  rewrite sum_upto_1. unfold at_. cbn [scale coeff]. ring.
Qed.

Lemma Prediction_speed (delta_t : R) (u : UKF) :
  n_aug_ u = 7%Z ->
  n_sig_ u = 15%Z ->
  lambda_ u = -4 ->
  at_ (x_ (Prediction' delta_t u)) 2 = at_ (x_ u) 2.
Proof.
  intros Ha Hs Hl. rewrite Prediction_x. unfold at_.
  cbn [add mul coeff fill Zero rows cols].
  destruct (SigmaPointPrediction_dims u (AugmentedSigmaPoints llt u) delta_t)
    as [_ ->].
  rewrite Hs, sum_upto_15.
  rewrite !SigmaPointPrediction_speed by lia.
  destruct (AugmentedSigmaPoints_columns u Ha) as (H0 & Hp & Hm).
  rewrite !H0.
  rewrite !(Hp 1%Z), !(Hp 2%Z), !(Hp 3%Z), !(Hp 4%Z), !(Hp 5%Z),
    !(Hp 6%Z), !(Hp 7%Z) by lia.
  rewrite !(Hm 8%Z), !(Hm 9%Z), !(Hm 10%Z), !(Hm 11%Z), !(Hm 12%Z),
    !(Hm 13%Z), !(Hm 14%Z) by lia.
  unfold set_weights. rewrite Hs, Hl, Ha. cbn.
  replace 0.5 with (/ 2) by lra. replace 0.0 with 0 by lra.
  field.
Qed.

(** The predicted variance of the speed, in terms of the factor. *)
Lemma Prediction_speed_variance (delta_t : R) (u : UKF) :
  n_aug_ u = 7%Z ->
  n_sig_ u = 15%Z ->
  lambda_ u = -4 ->
  let L := matrixL (llt (P_aug_of u)) in
  P_ (Prediction' delta_t u) 2%Z 2%Z
  = sum_upto 7 (fun j => (L 2%Z j + delta_t * L 5%Z j)
                         * (L 2%Z j + delta_t * L 5%Z j)).
Proof.
  intros Ha Hs Hl L.
  rewrite Prediction_P_coeff by lia.
  assert (Hd : forall i, (0 <= i < 15)%Z ->
            at_ (predicted_residual NormalizeAngle llt delta_t u i) 2
            = AugmentedSigmaPoints llt u 2%Z i
              + AugmentedSigmaPoints llt u 5%Z i * delta_t - at_ (x_ u) 2).
  { intros i Hi. unfold predicted_residual, normalize_at, at_.
    cbn [set_coeff sub col coeff Z.eqb andb].
    fold (at_ (x_ (Prediction' delta_t u)) 2).
    rewrite Prediction_speed by assumption.
    unfold predicted_points. rewrite SigmaPointPrediction_speed by lia.
    reflexivity. }
  rewrite Hs, sum_upto_15. rewrite !Hd by lia.
  destruct (AugmentedSigmaPoints_columns u Ha) as (H0 & Hp & Hm).
  rewrite !H0.
  rewrite !(Hp 1%Z), !(Hp 2%Z), !(Hp 3%Z), !(Hp 4%Z), !(Hp 5%Z),
    !(Hp 6%Z), !(Hp 7%Z) by lia.
  rewrite !(Hm 8%Z), !(Hm 9%Z), !(Hm 10%Z), !(Hm 11%Z), !(Hm 12%Z),
    !(Hm 13%Z), !(Hm 14%Z) by lia.
  fold L. rewrite sum_upto_7.
  unfold set_weights. rewrite Hs, Hl, Ha. unfold at_. cbn.
  replace 0.5 with (/ 2) by lra. replace 0.0 with 0 by lra.
  replace (-4 + 7) with 3 by lra.
  assert (Hsq : sqrt 3 * sqrt 3 = 3) by (apply sqrt_sqrt; lra).
  set (s := sqrt 3) in *.
  match goal with
  | |- _ = ?rhs => transitivity (s * s / 3 * rhs); [field | rewrite Hsq; field]
  end.
Qed.

(** Round [i] of the loop of lines 485-506 decides column [i]. *)
Lemma UpdateRadar_Zsig_column (u : UKF) (r i : Z) :
  (0 <= i < n_sig_ u)%Z -> (0 <= r < 3)%Z ->
  UpdateRadar_Zsig u r i = UpdateRadar_Zsig_body u i (Zero 0 0) r i.
Proof.
  intros Hi Hr. unfold UpdateRadar_Zsig.
  apply (for_loop_columns _
           (fun r c => UpdateRadar_Zsig_body u c (Zero 0 0) r c)
           (fun r => (0 <= r < 3)%Z)); [ | | exact Hi | exact Hr].
  - intros k A r' c Hne. cbn.
    replace (c =? k)%Z with false by (symmetry; apply Z.eqb_neq; exact Hne).
    rewrite !andb_false_r. reflexivity.
  - intros k A r' Hr'. cbn. rewrite Z.eqb_refl, !andb_true_r.
    assert (r' = 0 \/ r' = 1 \/ r' = 2)%Z as [-> | [-> | ->]] by lia;
      reflexivity.
Qed.

(** The predicted radar measurement and the innovation covariance, as
    sums over the sigma points. *)
Lemma UpdateRadar_z_pred_coeff (u : UKF) (r : Z) :
  (0 <= n_sig_ u)%Z ->
  UpdateRadar_z_pred u r 0%Z
  = 0.0 + sum_upto (n_sig_ u)
            (fun i => at_ (weights_ u) i * UpdateRadar_Zsig u r i).
Proof.
  intros Hn. unfold UpdateRadar_z_pred.
  apply (for_loop_accumulate
           (fun i => (at_ (weights_ u) i *: col i (UpdateRadar_Zsig u))%M)
           (fill 0.0 (Zero (n_z_radar_ u) 1)) (n_sig_ u) r 0 Hn).
Qed.

Lemma UpdateRadar_S_coeff (u : UKF) (r c : Z) :
  (0 <= n_sig_ u)%Z ->
  UpdateRadar_S NormalizeAngle u r c
  = 0.0
    + sum_upto (n_sig_ u)
        (fun i => at_ (weights_ u) i
                  * at_ (radar_residual NormalizeAngle u i) r
                  * at_ (radar_residual NormalizeAngle u i) c)
    + R_radar_ u r c.
Proof.
  intros Hn.
  transitivity
    (for_loop (n_sig_ u)
       (fun i A =>
          (A + (at_ (weights_ u) i *: radar_residual NormalizeAngle u i)
               * transpose (radar_residual NormalizeAngle u i))%M)
       (fill 0.0 (Zero (n_z_radar_ u) (n_z_radar_ u))) r c
     + R_radar_ u r c); [reflexivity |].
  rewrite for_loop_accumulate by exact Hn.
  cbn [fill coeff]. f_equal. f_equal. apply sum_upto_ext. intros i _.
  cbn [mul scale transpose coeff cols rows].
  unfold radar_residual at 1. unfold normalize_at at 1.
  cbn [set_coeff cols sub col].
  rewrite sum_upto_1. unfold at_. cbn [scale coeff]. ring.
Qed.

(** The guarded coordinates are never both zero. *)
Lemma radar_guard_nonzero (p_x p_y : R) :
  ~ (snd (radar_guard p_x p_y) = 0 /\ fst (radar_guard p_x p_y) = 0).
Proof.
  pose proof epsilon_pos as He. unfold radar_guard.
  destruct (Rlt_dec (Rabs p_x) epsilon) as [Hx | Hx];
    [destruct (Rlt_dec (Rabs p_y) epsilon) as [Hy | Hy] |]; cbn;
    intros [H1 H2].
  - lra.
  - rewrite H1, Rabs_R0 in Hy. lra.
  - rewrite H2, Rabs_R0 in Hx. lra.
Qed.

(** ** The filter's behaviour *)

(** Of the factorisation the three methods see the factor only: two
    factorisations that return the same factor of the augmented covariance
    leave the same sigma points and the same filter, whatever status each
    reports. *)
Lemma AugmentedSigmaPoints_status (llt' : MatrixXd -> LLT) (u : UKF) :
  matrixL (llt' (P_aug_of u)) = matrixL (llt (P_aug_of u)) ->
  AugmentedSigmaPoints llt' u = AugmentedSigmaPoints llt u.
Proof.
  intros HL. unfold AugmentedSigmaPoints. cbv zeta. rewrite HL. reflexivity.
Qed.

Lemma Prediction_status (llt' : MatrixXd -> LLT) (delta_t : R) (u : UKF) :
  matrixL (llt' (P_aug_of u)) = matrixL (llt (P_aug_of u)) ->
  Prediction NormalizeAngle llt' delta_t u = Prediction' delta_t u.
Proof.
  intros HL. unfold Prediction.
  rewrite (AugmentedSigmaPoints_status llt' u HL). reflexivity.
Qed.

Lemma ProcessMeasurement_status (llt' : MatrixXd -> LLT) (u : UKF)
    (m : MeasurementPackage) :
  matrixL (llt' (P_aug_of u)) = matrixL (llt (P_aug_of u)) ->
  ProcessMeasurement NormalizeAngle llt' inverse u m = ProcessMeasurement' u m.
Proof.
  intros HL. unfold ProcessMeasurement.
  destruct (negb (is_initialized_ u)); [reflexivity |]. cbv zeta.
  rewrite (Prediction_status llt' _ (set_time_us_ (timestamp_ m) u));
    [reflexivity |].
  replace (P_aug_of (set_time_us_ (timestamp_ m) u)) with (P_aug_of u)
    by (destruct u; reflexivity).
  exact HL.
Qed.

(** What the code does with a measurement of a disabled sensor past
    initialisation: it skips the update only.  The call records the time
    stamp and runs the prediction over the elapsed time, so the state vector
    and the covariance are the predicted ones; neither NIS value is
    written. *)
Theorem disabled_sensor_when_ready (u : UKF) (m : MeasurementPackage) :
  is_initialized_ u = true ->
  sensor_enabled u (sensor_type_ m) = false ->
  let delta_t := IZR (timestamp_ m - time_us_ u) / 1000000.0 in
  let predicted := Prediction' delta_t (set_time_us_ (timestamp_ m) u) in
  let u' := ProcessMeasurement' u m in
  u' = predicted
  /\ x_ u' = x_ predicted
  /\ P_ u' = P_ predicted
  /\ NIS_radar_ u' = NIS_radar_ u
  /\ NIS_laser_ u' = NIS_laser_ u
  /\ time_us_ u' = timestamp_ m
  /\ is_initialized_ u' = true.
Proof.
  intros Hi He delta_t predicted u'. subst u' predicted delta_t.
  rewrite (ProcessMeasurement_ready_disabled u m Hi He).
  destruct (Prediction_frame
              (IZR (timestamp_ m - time_us_ u) / 1000000.0)
              (set_time_us_ (timestamp_ m) u))
    as (Hin & _ & _ & Ht & Hr & Hl).
  rewrite Hin, Ht, Hr, Hl. destruct u; cbn in *. repeat split. exact Hi.
Qed.

(** C2, as amended.  The first measurement of an enabled sensor type sets
    the position from the measurement (polar to Cartesian for the radar),
    heading and heading rate to zero, and the speed to zero for the laser
    but to the measured range rate for the radar; it records the time
    stamp, marks the filter initialised and writes nothing else, so no
    prediction or update is made and the covariance is left as it was: the
    5 by 5 identity, in every filter a client can arrive at.  A laser
    bootstrap at (1.0, 0.5) of a new filter gives the state
    (1.0, 0.5, 0, 0, 0) and the identity covariance. *)
Theorem bootstrap_first_measurement (u : UKF) (m : MeasurementPackage) :
  is_initialized_ u = false ->
  sensor_enabled u (sensor_type_ m) = true ->
  let z := raw_measurements_ m in
  let x0 :=
    match sensor_type_ m with
    | RADAR => of_list [at_ z 0 * cos (at_ z 1); at_ z 0 * sin (at_ z 1);
                        at_ z 2; 0; 0]
    | LASER => of_list [at_ z 0; at_ z 1; 0; 0; 0]
    end in
  let u' := ProcessMeasurement' u m in
  u' = set_time_us_ (timestamp_ m) (set_is_initialized_ true (set_x_ x0 u))
  /\ x_ u' = x0
  /\ P_ u' = P_ u
  /\ (reachable NormalizeAngle llt inverse u -> P_ u' = Identity 5 5)
  /\ time_us_ u' = timestamp_ m
  /\ is_initialized_ u' = true
  /\ Xsig_pred_ u' = Xsig_pred_ u
  /\ weights_ u' = weights_ u
  /\ NIS_radar_ u' = NIS_radar_ u
  /\ NIS_laser_ u' = NIS_laser_ u
  /\ (forall t,
        let a := ProcessMeasurement' UKF_new
                   (mkMeas t LASER (of_list [1; 0.5])) in
        x_ a = of_list [1; 0.5; 0; 0; 0] /\ P_ a = Identity 5 5).
Proof.
  intros Hi He z x0 u'. subst u'.
  rewrite (ProcessMeasurement_uninitialized u m Hi), He. fold z x0.
  assert (HP : reachable NormalizeAngle llt inverse u -> P_ u = Identity 5 5)
    by (intros Hu; apply (reachable_uninitialized u Hu Hi)).
  destruct u; cbn in *. repeat split; auto.
Qed.

(** C3.  A radar bootstrap with range 5, bearing 0 and range rate 2 gives
    the state (5, 0, 2, 0, 0): the speed is the measured range rate. *)
Theorem radar_bootstrap_scenario (u : UKF) (t : Z) :
  is_initialized_ u = false ->
  use_radar_ u = true ->
  x_ (ProcessMeasurement' u (mkMeas t RADAR (of_list [5; 0; 2])))
  = of_list [5; 0; 2; 0; 0].
Proof.
  intros Hi Hr. rewrite (ProcessMeasurement_uninitialized u _ Hi).
  cbn [sensor_enabled sensor_type_]. rewrite Hr.
  destruct u; cbn. unfold at_; cbn.
  rewrite cos_0, sin_0, Rmult_1_r, Rmult_0_r. reflexivity.
Qed.

(** C4, as amended.  Sigma-point generation has no failure path and
    reports nothing: whatever the augmented covariance is, and whatever
    status the factorisation reports, the call writes the 2 n_aug + 1
    columns built from the factor it was given, the mean and the mean plus
    and minus sqrt(lambda + n_aug) times each column of the factor; and the
    status never reaches the caller: a factorisation that returns the same
    factor under any other status gives the same sigma points, the same
    filter after a prediction and the same filter after a call of
    [ProcessMeasurement]. *)
Theorem sigma_points_always_returned (u : UKF) (llt' : MatrixXd -> LLT) :
  n_aug_ u = 7%Z ->
  n_sig_ u = (2 * n_aug_ u + 1)%Z ->
  let x_aug := x_aug_of u in
  let L := matrixL (llt (P_aug_of u)) in
  let s := sqrt (lambda_ u + IZR (n_aug_ u)) in
  let Xsig_aug := AugmentedSigmaPoints llt u in
  rows Xsig_aug = 7%Z
  /\ cols Xsig_aug = 15%Z
  /\ (forall r, (0 <= r < 7)%Z -> Xsig_aug r 0%Z = at_ x_aug r)
  /\ (forall i r, (0 <= i < 7)%Z -> (0 <= r < 7)%Z ->
        Xsig_aug r (i + 1)%Z = at_ x_aug r + s * L r i
        /\ Xsig_aug r (i + 1 + 7)%Z = at_ x_aug r - s * L r i)
  /\ (matrixL (llt' (P_aug_of u)) = L ->
      AugmentedSigmaPoints llt' u = Xsig_aug
      /\ (forall delta_t,
            Prediction NormalizeAngle llt' delta_t u = Prediction' delta_t u)
      /\ (forall m,
            ProcessMeasurement NormalizeAngle llt' inverse u m
            = ProcessMeasurement' u m)).
Proof.
  intros Ha Hs x_aug L s Xsig_aug.
  destruct (AugmentedSigmaPoints_dims u) as [Hr Hc].
  split; [subst Xsig_aug; rewrite Hr; exact Ha |].
  split; [subst Xsig_aug; rewrite Hc; lia |].
  destruct (AugmentedSigmaPoints_columns u Ha) as (H0 & Hp & Hm).
  split; [intros r _; apply H0 |].
  split.
  - intros i r Hi _. split.
    + subst Xsig_aug. rewrite (Hp (i + 1)%Z r) by lia.
      replace (i + 1 - 1)%Z with i by lia. reflexivity.
    + subst Xsig_aug. rewrite (Hm (i + 1 + 7)%Z r) by lia.
      replace (i + 1 + 7 - 8)%Z with i by lia. reflexivity.
  - intros HL. split; [apply AugmentedSigmaPoints_status; exact HL |].
    split.
    + intros delta_t. apply Prediction_status. exact HL.
    + intros m. apply ProcessMeasurement_status. exact HL.
Qed.

(** C5.  The motion model takes the straight-line limit when the heading
    rate is at most 1e-3 in absolute value and the arc displacement, divided
    by the heading rate, above it; the acceleration noise term is added to
    either.  The zero-noise sigma point (0, 0, 1, 0, 0) with heading rate 0
    moves to the position (1, 0) in one second. *)
Theorem ctrv_motion_model (u : UKF) (Xsig_aug : MatrixXd) (delta_t : R)
    (i : Z) :
  (0 <= i < n_sig_ u)%Z ->
  let p_x := Xsig_aug 0%Z i in
  let p_y := Xsig_aug 1%Z i in
  let v := Xsig_aug 2%Z i in
  let yaw := Xsig_aug 3%Z i in
  let yawd := Xsig_aug 4%Z i in
  let nu_a := Xsig_aug 5%Z i in
  let Xsig_pred := SigmaPointPrediction u Xsig_aug delta_t in
  (Rabs yawd <= 0.001 ->
   Xsig_pred 0%Z i
   = p_x + v * delta_t * cos yaw + 0.5 * nu_a * delta_t * delta_t * cos yaw
   /\ Xsig_pred 1%Z i
      = p_y + v * delta_t * sin yaw
        + 0.5 * nu_a * delta_t * delta_t * sin yaw)
  /\ (Rabs yawd > 0.001 ->
      Xsig_pred 0%Z i
      = p_x + v / yawd * (sin (yaw + yawd * delta_t) - sin yaw)
        + 0.5 * nu_a * delta_t * delta_t * cos yaw
      /\ Xsig_pred 1%Z i
         = p_y + v / yawd * (cos yaw - cos (yaw + yawd * delta_t))
           + 0.5 * nu_a * delta_t * delta_t * sin yaw)
  /\ (p_x = 0 -> p_y = 0 -> v = 1 -> yaw = 0 -> yawd = 0 -> nu_a = 0 ->
      delta_t = 1 ->
      Xsig_pred 0%Z i = 1 /\ Xsig_pred 1%Z i = 0).
Proof.
  intros Hi p_x p_y v yaw yawd nu_a Xsig_pred. subst Xsig_pred.
  rewrite (SigmaPointPrediction_column u Xsig_aug delta_t 0 i),
    (SigmaPointPrediction_column u Xsig_aug delta_t 1 i) by lia.
  cbn. rewrite Z.eqb_refl. cbn.
  fold p_x p_y v yaw yawd nu_a.
  split; [| split].
  - intros Hle. destruct (Rgt_dec (Rabs yawd) 0.001) as [Hgt | _]; [lra |].
    cbn. split; reflexivity.
  - intros Hgt. destruct (Rgt_dec (Rabs yawd) 0.001) as [_ | Hn]; [| lra].
    cbn. split; reflexivity.
  - intros -> -> -> -> Hy -> ->. rewrite Hy.
    destruct (Rgt_dec (Rabs 0) 0.001) as [Hgt | _].
    + rewrite Rabs_R0 in Hgt. lra.
    + cbn. rewrite cos_0, sin_0. split; lra.
Qed.

(** C6.  With n_aug = 7 the sigma-point matrix has 15 columns: column 0 is
    the augmented mean, columns 1 to 7 are the mean plus
    sqrt(lambda + n_aug) times the columns of the factor [L] the Cholesky
    factorisation of the augmented covariance returned, and columns 8 to 14
    are the mean minus the same offsets. *)
Theorem sigma_point_columns (u : UKF) :
  n_aug_ u = 7%Z ->
  n_sig_ u = (2 * n_aug_ u + 1)%Z ->
  let x_aug := x_aug_of u in
  let L := matrixL (llt (P_aug_of u)) in
  let s := sqrt (lambda_ u + IZR (n_aug_ u)) in
  let Xsig_aug := AugmentedSigmaPoints llt u in
  cols Xsig_aug = 15%Z
  /\ rows Xsig_aug = 7%Z
  /\ (forall r, Xsig_aug r 0%Z = at_ x_aug r)
  /\ (forall i r, (1 <= i <= 7)%Z ->
        Xsig_aug r i = at_ x_aug r + s * L r (i - 1)%Z)
  /\ (forall i r, (8 <= i <= 14)%Z ->
        Xsig_aug r i = at_ x_aug r - s * L r (i - 8)%Z)
  /\ (forall r, (0 <= r < 5)%Z -> at_ x_aug r = at_ (x_ u) r)
  /\ at_ x_aug 5 = 0
  /\ at_ x_aug 6 = 0.
Proof.
  intros Ha Hs x_aug L s Xsig_aug.
  destruct (AugmentedSigmaPoints_dims u) as [Hr Hc].
  split; [subst Xsig_aug; rewrite Hc; lia |].
  split; [subst Xsig_aug; rewrite Hr; lia |].
  destruct (AugmentedSigmaPoints_columns u Ha) as (H0 & Hp & Hm).
  split; [exact H0 |]. split; [exact Hp |]. split; [exact Hm |].
  split; [| split; reflexivity].
  intros r Hr'.
  assert (r = 0 \/ r = 1 \/ r = 2 \/ r = 3 \/ r = 4)%Z
    as [-> | [-> | [-> | [-> | ->]]]] by lia; reflexivity.
Qed.

(** C7.  With lambda = 3 - n_aug and n_aug = 7, the weights a prediction
    sets are lambda / (lambda + n_aug) at index 0 and
    1 / (2 (lambda + n_aug)) at the other fourteen indices, and the fifteen
    weights sum to 1. *)
Theorem weights_sum_to_one (u : UKF) (delta_t : R) :
  n_aug_ u = 7%Z ->
  lambda_ u = IZR (3 - n_aug_ u) ->
  n_sig_ u = (2 * n_aug_ u + 1)%Z ->
  let w := weights_ (Prediction' delta_t u) in
  rows w = 15%Z
  /\ at_ w 0 = lambda_ u / (lambda_ u + IZR (n_aug_ u))
  /\ (forall i, (1 <= i < 15)%Z ->
        at_ w i = 1 / (2 * (lambda_ u + IZR (n_aug_ u))))
  /\ sum_upto 15 (at_ w) = 1.
Proof.
  intros Ha Hl Hs w. subst w. rewrite Prediction_weights.
  unfold set_weights, at_. rewrite Hs, Hl, Ha.
  change (3 - 7)%Z with (-4)%Z. change (2 * 7 + 1)%Z with 15%Z.
  split; [reflexivity |]. split; [reflexivity |]. split.
  - intros i Hi. cbn.
    replace (i =? 0)%Z with false by (symmetry; apply Z.eqb_neq; lia).
    cbn. lra.
  - unfold sum_upto. rewrite for_loop_15. cbn. lra.
Qed.

(** C8.  In the radar measurement model, a predicted sigma point whose x
    and y are both below machine epsilon in absolute value has both
    replaced by epsilon, which is positive, before the bearing and the range
    rate are computed; the arguments of [atan2] are therefore never both
    zero and the divisor of the range rate is never zero. *)
Theorem radar_guard_safe (u : UKF) (i : Z) :
  (0 <= i < n_sig_ u)%Z ->
  let p_x := Xsig_pred_ u 0%Z i in
  let p_y := Xsig_pred_ u 1%Z i in
  let v1 := cos (Xsig_pred_ u 3%Z i) * Xsig_pred_ u 2%Z i in
  let v2 := sin (Xsig_pred_ u 3%Z i) * Xsig_pred_ u 2%Z i in
  let g := radar_guard p_x p_y in
  (Rabs p_x < epsilon -> Rabs p_y < epsilon -> g = (epsilon, epsilon))
  /\ 0 < epsilon
  /\ UpdateRadar_Zsig u 1%Z i = atan2 (snd g) (fst g)
  /\ UpdateRadar_Zsig u 2%Z i
     = (fst g * v1 + snd g * v2) / sqrt (fst g * fst g + snd g * snd g)
  /\ ~ (snd g = 0 /\ fst g = 0)
  /\ sqrt (fst g * fst g + snd g * snd g) <> 0.
Proof.
  intros Hi p_x p_y v1 v2 g.
  pose proof (radar_guard_nonzero p_x p_y) as Hnz. fold g in Hnz.
  split; [| split; [exact epsilon_pos | split; [| split; [| split]]]].
  - intros Hx Hy. unfold g, radar_guard.
    destruct (Rlt_dec (Rabs p_x) epsilon); [| lra].
    destruct (Rlt_dec (Rabs p_y) epsilon); [reflexivity | lra].
  - rewrite (UpdateRadar_Zsig_column u 1 i) by lia.
    cbn. rewrite Z.eqb_refl. reflexivity.
  - rewrite (UpdateRadar_Zsig_column u 2 i) by lia.
    cbn. rewrite Z.eqb_refl. reflexivity.
  - exact Hnz.
  - intros H0. apply Hnz. apply sqrt_eq_0 in H0; [| nra]. nra.
Qed.

(** C9.  In both update paths, when the innovation covariance [S] is
    positive definite and [inverse] returns its inverse, the NIS value
    [z_diff^T S^-1 z_diff] the update stores is not negative. *)
Theorem NIS_nonnegative (u : UKF) :
  (forall m,
     rows (raw_measurements_ m) = n_z_laser_ u ->
     positive_definite (n_z_laser_ u) (UpdateLidar_S u) ->
     inverse_of (n_z_laser_ u) (UpdateLidar_S u)
       (inverse (UpdateLidar_S u)) ->
     0 <= NIS_laser_ (UpdateLidar NormalizeAngle inverse u m))
  /\ (forall m,
        rows (raw_measurements_ m) = n_z_radar_ u ->
        positive_definite (n_z_radar_ u) (UpdateRadar_S NormalizeAngle u) ->
        inverse_of (n_z_radar_ u) (UpdateRadar_S NormalizeAngle u)
          (inverse (UpdateRadar_S NormalizeAngle u)) ->
        0 <= NIS_radar_ (UpdateRadar NormalizeAngle inverse u m)).
Proof.
  split; intros m Hz Hpd Hinv.
  - unfold UpdateLidar. rewrite NIS_laser_set.
    apply (positive_definite_inverse_nonneg _ _ _ _ Hpd Hinv). exact Hz.
  - unfold UpdateRadar. rewrite NIS_radar_set.
    apply (positive_definite_inverse_nonneg _ _ _ _ Hpd Hinv). exact Hz.
Qed.

(** C10, as amended.  In the uninitialised state a measurement of a
    disabled sensor type leaves the filter uninitialised and the state
    vector and covariance unchanged, and overwrites the stored time stamp.
    That time stamp is never used: the next accepted measurement
    bootstraps the filter without computing an elapsed time and stores its
    own time stamp, so the filter ends in the state it would have reached
    without the ignored measurement, and the elapsed time of the
    measurement after it is counted from the bootstrap. *)
Theorem ignored_before_bootstrap (u : UKF) (m1 : MeasurementPackage) :
  is_initialized_ u = false ->
  sensor_enabled u (sensor_type_ m1) = false ->
  let u1 := ProcessMeasurement' u m1 in
  u1 = set_time_us_ (timestamp_ m1) u
  /\ is_initialized_ u1 = false
  /\ x_ u1 = x_ u
  /\ P_ u1 = P_ u
  /\ time_us_ u1 = timestamp_ m1
  /\ forall m2 : MeasurementPackage,
       sensor_enabled u (sensor_type_ m2) = true ->
       ProcessMeasurement_delta_t u1 m2 = None
       /\ ProcessMeasurement' u1 m2 = ProcessMeasurement' u m2
       /\ forall m3 : MeasurementPackage,
            ProcessMeasurement_delta_t (ProcessMeasurement' u1 m2) m3
            = Some (IZR (timestamp_ m3 - timestamp_ m2) / 1000000.0).
Proof.
  intros Hi He u1. subst u1.
  rewrite (ProcessMeasurement_uninitialized u m1 Hi), He.
  assert (Hi1 : is_initialized_ (set_time_us_ (timestamp_ m1) u) = false)
    by (destruct u; exact Hi).
  split; [reflexivity |]. split; [exact Hi1 |].
  split; [destruct u; reflexivity |]. split; [destruct u; reflexivity |].
  split; [destruct u; reflexivity |].
  intros m2 He2.
  rewrite (ProcessMeasurement_uninitialized _ m2 Hi1),
    (ProcessMeasurement_uninitialized u m2 Hi).
  replace (sensor_enabled (set_time_us_ (timestamp_ m1) u) (sensor_type_ m2))
    with (sensor_enabled u (sensor_type_ m2))
    by (destruct u, (sensor_type_ m2); reflexivity).
  rewrite He2. unfold ProcessMeasurement_delta_t. rewrite Hi1.
  split; [reflexivity |]. split; [destruct u; reflexivity |].
  intros m3. destruct u; reflexivity.
Qed.

End Behaviour.

(** ** The filter at concrete inputs *)

(** *** The covariance that has collapsed *)

Lemma P_aug_collapsed_not_positive_definite :
  ~ positive_definite 7 (P_aug_of UKF_collapsed).
Proof.
  intros Hpd.
  specialize (Hpd (of_list [1; 0; 0; 0; 0; 0; 0])).
  assert (H : 0 < sum_upto 7 (fun i => sum_upto 7 (fun j =>
            at_ (of_list [1; 0; 0; 0; 0; 0; 0]) i
            * P_aug_of UKF_collapsed i j
            * at_ (of_list [1; 0; 0; 0; 0; 0; 0]) j))).
  { apply Hpd. exists 0%Z. split; [lia |]. unfold at_; cbn. lra. }
  rewrite sum_upto_7 in H. rewrite !sum_upto_7 in H.
  unfold at_ in H. cbn in H. lra.
Qed.

(** The reference factorisation does notice: it stops at the first pivot,
    reports a numerical issue and leaves the matrix as it found it, so what
    [matrixL()] shows is the lower triangle of the covariance itself. *)
Lemma llt_ref_collapsed :
  info (llt_ref (P_aug_of UKF_collapsed)) = NumericalIssue
  /\ matrixL (llt_ref (P_aug_of UKF_collapsed))
     = lower (P_aug_of UKF_collapsed).
Proof.
  unfold llt_ref.
  change (rows (P_aug_of UKF_collapsed)) with 7%Z.
  rewrite for_loop_7.
  assert (H0 : llt_step 0 (P_aug_of UKF_collapsed, Success)
               = (P_aug_of UKF_collapsed, NumericalIssue)).
  { unfold llt_step.
    destruct (Rle_dec _ 0) as [_ | Hn]; [reflexivity |].
    exfalso. apply Hn. cbn. lra. }
  rewrite H0. split; reflexivity.
Qed.

(** C4, as stated, fails at the collapsed filter.  Its augmented covariance
    is not positive definite and the factorisation reports a numerical
    issue; the call writes its sigma points all the same, built from a
    matrix that is no factor of the covariance (the sigma point of the
    acceleration noise sits at sqrt 3 times the variance 0.0625, not at
    sqrt 3 times the deviation 0.25); and nothing tells the caller: the
    sigma points, and the filter after a whole call of
    [ProcessMeasurement], are those of a factorisation that reported
    success. *)
Lemma non_positive_definite_not_reported :
  ~ positive_definite 7 (P_aug_of UKF_collapsed)
  /\ info (llt_ref (P_aug_of UKF_collapsed)) = NumericalIssue
  /\ info (status_masked llt_ref (P_aug_of UKF_collapsed)) = Success
  /\ AugmentedSigmaPoints llt_ref UKF_collapsed 5%Z 6%Z
     = sqrt 3 * (0.25 * 0.25)
  /\ matrixL (llt_ref (P_aug_of UKF_collapsed)) 5%Z 5%Z
     * matrixL (llt_ref (P_aug_of UKF_collapsed)) 5%Z 5%Z
     <> P_aug_of UKF_collapsed 5%Z 5%Z
  /\ AugmentedSigmaPoints llt_ref UKF_collapsed
     = AugmentedSigmaPoints (status_masked llt_ref) UKF_collapsed
  /\ ProcessMeasurement wrap_angle llt_ref inverse_ref UKF_collapsed
       laser_at_3s
     = ProcessMeasurement wrap_angle (status_masked llt_ref) inverse_ref
         UKF_collapsed laser_at_3s.
Proof.
  destruct llt_ref_collapsed as [Hi HL].
  split; [exact P_aug_collapsed_not_positive_definite |].
  split; [exact Hi |]. split; [reflexivity |].
  split.
  { destruct (AugmentedSigmaPoints_columns llt_ref UKF_collapsed eq_refl)
      as (_ & Hp & _).
    rewrite (Hp 6%Z 5%Z) by lia. rewrite HL.
    change (lambda_ UKF_collapsed) with (IZR (3 - 7)).
    change (n_aug_ UKF_collapsed) with 7%Z.
    replace (IZR (3 - 7) + 7) with 3 by (cbn; lra).
    unfold at_. cbn. lra. }
  split; [rewrite HL; cbn; lra |].
  split; symmetry.
  - apply AugmentedSigmaPoints_status. reflexivity.
  - apply ProcessMeasurement_status. reflexivity.
Qed.

(** *** The filter at the origin *)

Lemma UpdateLidar_S_at_origin :
  diagonal 2 (fun _ => 0.15 * 0.15) (UpdateLidar_S UKF_at_origin).
Proof.
  split; [reflexivity |]. split; [reflexivity |].
  intros i j Hi Hj.
  unfold UpdateLidar_S, UpdateLidar_z_pred, UpdateLidar_Zsig.
  change (n_sig_ UKF_at_origin) with 15%Z.
  rewrite !for_loop_15.
  assert (i = 0 \/ i = 1)%Z as [-> | ->] by lia;
    assert (j = 0 \/ j = 1)%Z as [-> | ->] by lia; cbn;
    change (Pos.to_nat 1) with 1%nat; cbn; lra.
Qed.

(** When the fifteen sigma points map to one and the same measurement,
    the innovation covariance is the measurement noise. *)
Lemma UpdateRadar_S_constant_columns (u : UKF) (c : Z -> R) :
  n_sig_ u = 15%Z ->
  weights_ u = set_weights UKF_new ->
  (forall r i, (0 <= i < 15)%Z -> (0 <= r < 3)%Z ->
     UpdateRadar_Zsig u r i = c r) ->
  forall r k, (0 <= r < 3)%Z -> (0 <= k < 3)%Z ->
    UpdateRadar_S wrap_angle u r k = R_radar_ u r k.
Proof.
  intros Hn Hw Hc r k Hr Hk.
  assert (Hp : forall r, (0 <= r < 3)%Z -> UpdateRadar_z_pred u r 0%Z = c r).
  { intros r' Hr'. rewrite UpdateRadar_z_pred_coeff by lia.
    rewrite Hn, Hw.
    rewrite (sum_upto_ext 15 _ (fun i => at_ (set_weights UKF_new) i * c r'))
      by (intros i Hi; rewrite Hc by lia; reflexivity).
    rewrite sum_upto_15. unfold at_. cbn. lra. }
  assert (Hd : forall i, (0 <= i < 15)%Z -> forall r, (0 <= r < 3)%Z ->
            at_ (radar_residual wrap_angle u i) r = 0).
  { intros i Hi r' Hr'. unfold radar_residual, normalize_at, at_.
    cbn [set_coeff sub col coeff rows cols].
    rewrite !Hp, !Hc by lia.
    rewrite !Rminus_diag, wrap_angle_0.
    destruct ((r' =? 1)%Z && (0 =? 0)%Z); reflexivity. }
  rewrite UpdateRadar_S_coeff by lia. rewrite Hn.
  rewrite (sum_upto_ext 15 _ (fun _ => 0)), sum_upto_zero.
  - lra.
  - intros i Hi. rewrite !Hd by lia. ring.
Qed.

Lemma UpdateRadar_Zsig_at_origin :
  exists c : Z -> R, forall r i, (0 <= i < 15)%Z -> (0 <= r < 3)%Z ->
    UpdateRadar_Zsig UKF_at_origin r i = c r.
Proof.
  exists (fun r => UpdateRadar_Zsig_body UKF_at_origin 0 (Zero 0 0) r 0%Z).
  intros r i Hi Hr.
  rewrite (UpdateRadar_Zsig_column UKF_at_origin r i) by (cbn; lia).
  assert (r = 0 \/ r = 1 \/ r = 2)%Z as [-> | [-> | ->]] by lia;
    cbn; rewrite Z.eqb_refl; reflexivity.
Qed.

Lemma UpdateRadar_S_at_origin :
  diagonal 3 (fun i => listed 0 [0.3 * 0.3; 0.03 * 0.03; 0.3 * 0.3] i)
    (UpdateRadar_S wrap_angle UKF_at_origin).
Proof.
  split; [reflexivity |]. split; [reflexivity |].
  intros i j Hi Hj.
  destruct UpdateRadar_Zsig_at_origin as [c Hc].
  rewrite (UpdateRadar_S_constant_columns UKF_at_origin c eq_refl eq_refl Hc)
    by lia.
  assert (i = 0 \/ i = 1 \/ i = 2)%Z as [-> | [-> | ->]] by lia;
    assert (j = 0 \/ j = 1 \/ j = 2)%Z as [-> | [-> | ->]] by lia;
    reflexivity.
Qed.

(** *** The laser-only filter after its bootstrap *)

Lemma UKF_tracking_reachable :
  reachable wrap_angle llt_ref inverse_ref UKF_tracking.
Proof.
  apply reachable_measurement, reachable_use_radar, reachable_new.
Qed.

Lemma P_aug_tracking :
  diagonal 7
    (fun i => listed 0 [1; 1; 1; 1; 1; 0.25 * 0.25;
                        20.0 / 100.0 * PI * (20.0 / 100.0 * PI)] i)
    (P_aug_of (set_time_us_ 4000000 UKF_tracking)).
Proof.
  split; [reflexivity |]. split; [reflexivity |].
  intros i j Hi Hj.
  assert (i = 0 \/ i = 1 \/ i = 2 \/ i = 3 \/ i = 4 \/ i = 5 \/ i = 6)%Z
    as [-> | [-> | [-> | [-> | [-> | [-> | ->]]]]]] by lia;
    assert (j = 0 \/ j = 1 \/ j = 2 \/ j = 3 \/ j = 4 \/ j = 5 \/ j = 6)%Z
      as [-> | [-> | [-> | [-> | [-> | [-> | ->]]]]]] by lia;
    cbn; lra.
Qed.

(** *** Counterexamples *)

(** C1.  The code at the failing input: the laser-only filter,
    bootstrapped by a laser measurement at 3 s and fed a measurement of the
    disabled radar at 4 s, does not ignore that measurement: the prediction
    of lines 154-158 runs before the toggle is looked at and raises the
    variance of the speed from 1 to 1.0625, where the claim, and the comment
    of lines 46 and 49, have the covariance left as it was. *)
Lemma disabled_sensor_changes_covariance :
  reachable wrap_angle llt_ref inverse_ref UKF_tracking
  /\ is_initialized_ UKF_tracking = true
  /\ sensor_enabled UKF_tracking (sensor_type_ radar_at_4s) = false
  /\ P_ UKF_tracking 2%Z 2%Z = 1
  /\ P_ (ProcessMeasurement wrap_angle llt_ref inverse_ref
           UKF_tracking radar_at_4s) 2%Z 2%Z = 1.0625
  /\ P_ (ProcessMeasurement wrap_angle llt_ref inverse_ref
           UKF_tracking radar_at_4s)
     <> P_ UKF_tracking.
Proof.
  assert (H1 : P_ (ProcessMeasurement wrap_angle llt_ref inverse_ref
                     UKF_tracking radar_at_4s) 2%Z 2%Z = 1.0625).
  { rewrite ProcessMeasurement_ready_disabled by reflexivity.
    change (timestamp_ radar_at_4s) with 4000000%Z.
    change (time_us_ UKF_tracking) with 3000000%Z.
    rewrite Prediction_speed_variance by reflexivity.
    pose proof PI_RGT_0 as Hpi.
    destruct (llt_ref_diagonal 7 _ _ ltac:(lia) P_aug_tracking) as [_ HL].
    { intros i Hi.
      assert (i = 0 \/ i = 1 \/ i = 2 \/ i = 3 \/ i = 4 \/ i = 5 \/ i = 6)%Z
        as [-> | [-> | [-> | [-> | [-> | [-> | ->]]]]]] by lia; cbn; nra. }
    rewrite sum_upto_7. rewrite !HL by lia. cbn.
    assert (Hs1 : sqrt 1 * sqrt 1 = 1) by (apply sqrt_sqrt; lra).
    assert (Hs2 : sqrt (0.25 * 0.25) * sqrt (0.25 * 0.25) = 0.25 * 0.25)
      by (apply sqrt_sqrt; lra).
    replace (IZR (4000000 - 3000000) / 1000000.0) with 1 by (cbn; lra).
    nra. }
  assert (H0 : P_ UKF_tracking 2%Z 2%Z = 1) by reflexivity.
  split; [exact UKF_tracking_reachable |].
  repeat split; try assumption.
  intros Heq. rewrite Heq in H1. lra.
Qed.

(** The state vector moves too when the object is turning: a filter with
    heading rate 1 rad/s, fed a measurement of the disabled radar one second
    later, has its heading moved by the prediction from 0 to 1. *)
Lemma disabled_sensor_moves_heading :
  is_initialized_ UKF_turning = true
  /\ sensor_enabled UKF_turning (sensor_type_ radar_at_1s) = false
  /\ at_ (x_ (ProcessMeasurement wrap_angle llt_ref inverse_ref
                UKF_turning radar_at_1s)) 3 = 1
  /\ at_ (x_ UKF_turning) 3 = 0.
Proof.
  split; [reflexivity |]. split; [reflexivity |]. split; [| reflexivity].
  rewrite ProcessMeasurement_ready_disabled by reflexivity.
  rewrite Prediction_yaw by reflexivity.
  unfold at_. cbn. lra.
Qed.

(** C2, as stated, fails: a radar bootstrap with range rate 2 leaves the
    speed at 2, not at zero. *)
Lemma radar_bootstrap_speed_not_zero :
  is_initialized_ UKF_new = false
  /\ sensor_enabled UKF_new RADAR = true
  /\ at_ (x_ (ProcessMeasurement wrap_angle llt_ref inverse_ref UKF_new
                (mkMeas 0 RADAR (of_list [5; 0; 2])))) 2 <> 0.
Proof.
  split; [reflexivity |]. split; [reflexivity |].
  unfold at_. cbn. lra.
Qed.

(** C10, as stated, fails: after the laser-only filter has ignored a radar
    measurement at 1 s, the laser measurement at 3 s is accepted without
    any elapsed time being computed, let alone one counted from 1 s. *)
Lemma ignored_timestamp_not_used :
  is_initialized_ UKF_laser_only = false
  /\ sensor_enabled UKF_laser_only (sensor_type_ radar_at_1s) = false
  /\ sensor_enabled UKF_laser_only (sensor_type_ laser_at_3s) = true
  /\ ProcessMeasurement_delta_t
       (ProcessMeasurement wrap_angle llt_ref inverse_ref
          UKF_laser_only radar_at_1s)
       laser_at_3s
     <> Some (IZR (timestamp_ laser_at_3s - timestamp_ radar_at_1s)
              / 1000000.0)
  /\ ProcessMeasurement wrap_angle llt_ref inverse_ref
       (ProcessMeasurement wrap_angle llt_ref inverse_ref
          UKF_laser_only radar_at_1s)
       laser_at_3s
     = ProcessMeasurement wrap_angle llt_ref inverse_ref
         UKF_laser_only laser_at_3s.
Proof.
  repeat split. cbn. discriminate.
Qed.

(** *** Instances *)

Lemma disabled_sensor_when_ready_witness :
  NIS_radar_ (ProcessMeasurement wrap_angle llt_ref inverse_ref
                UKF_turning radar_at_1s)
  = NIS_radar_ UKF_turning.
Proof.
  pose proof (disabled_sensor_when_ready wrap_angle llt_ref inverse_ref
                UKF_turning radar_at_1s eq_refl eq_refl) as H.
  cbv zeta in H. destruct H as (_ & _ & _ & H & _). exact H.
Defined.

Lemma bootstrap_first_measurement_witness :
  x_ (ProcessMeasurement wrap_angle llt_ref inverse_ref UKF_new laser_at_3s)
  = of_list [1; 0.5; 0; 0; 0].
Proof.
  pose proof (bootstrap_first_measurement wrap_angle llt_ref inverse_ref
                UKF_new laser_at_3s eq_refl eq_refl) as H.
  cbv zeta in H. destruct H as (_ & H & _). exact H.
Defined.

Lemma radar_bootstrap_scenario_witness :
  x_ (ProcessMeasurement wrap_angle llt_ref inverse_ref UKF_new
        (mkMeas 0 RADAR (of_list [5; 0; 2])))
  = of_list [5; 0; 2; 0; 0].
Proof.
  apply (radar_bootstrap_scenario wrap_angle llt_ref inverse_ref UKF_new 0);
    reflexivity.
Defined.

Lemma sigma_points_always_returned_witness :
  AugmentedSigmaPoints (status_masked llt_ref) UKF_collapsed
  = AugmentedSigmaPoints llt_ref UKF_collapsed
  /\ cols (AugmentedSigmaPoints llt_ref UKF_collapsed) = 15%Z.
Proof.
  pose proof (sigma_points_always_returned wrap_angle llt_ref inverse_ref
                UKF_collapsed (status_masked llt_ref) eq_refl eq_refl) as H.
  cbv zeta in H. destruct H as (_ & Hc & _ & _ & H).
  destruct (H eq_refl) as (H1 & _). split; [exact H1 | exact Hc].
Defined.

Lemma ctrv_motion_model_witness :
  SigmaPointPrediction UKF_new (of_list [0; 0; 1; 0; 0; 0; 0]) 1 0%Z 0%Z = 1
  /\ SigmaPointPrediction UKF_new (of_list [0; 0; 1; 0; 0; 0; 0]) 1 1%Z 0%Z
     = 0.
Proof.
  assert (Hi : (0 <= 0 < n_sig_ UKF_new)%Z) by (cbn; lia).
  pose proof (ctrv_motion_model UKF_new (of_list [0; 0; 1; 0; 0; 0; 0]) 1
                0 Hi) as H.
  cbv zeta in H. destruct H as (_ & _ & H).
  apply H; reflexivity.
Defined.

Lemma sigma_point_columns_witness :
  cols (AugmentedSigmaPoints llt_ref UKF_new) = 15%Z.
Proof.
  pose proof (sigma_point_columns llt_ref UKF_new eq_refl eq_refl) as H.
  cbv zeta in H. destruct H as (H & _). exact H.
Defined.

Lemma weights_sum_to_one_witness :
  sum_upto 15 (at_ (weights_ (Prediction wrap_angle llt_ref 1 UKF_new))) = 1.
Proof.
  pose proof (weights_sum_to_one wrap_angle llt_ref UKF_new 1
                eq_refl eq_refl eq_refl) as H.
  cbv zeta in H. destruct H as (_ & _ & _ & H). exact H.
Defined.

Lemma radar_guard_safe_witness :
  UpdateRadar_Zsig UKF_at_origin 1%Z 0%Z = atan2 epsilon epsilon.
Proof.
  assert (Hi : (0 <= 0 < n_sig_ UKF_at_origin)%Z) by (cbn; lia).
  pose proof (radar_guard_safe UKF_at_origin 0 Hi) as H.
  cbv zeta in H. destruct H as (Hg & _ & H & _).
  rewrite H, Hg; [reflexivity | |];
    cbn; rewrite Rabs_R0; exact epsilon_pos.
Defined.

Lemma NIS_nonnegative_witness :
  0 <= NIS_laser_ (UpdateLidar wrap_angle inverse_ref UKF_at_origin
                     laser_at_3s)
  /\ 0 <= NIS_radar_ (UpdateRadar wrap_angle inverse_ref UKF_at_origin
                        radar_at_1s).
Proof.
  destruct (NIS_nonnegative wrap_angle inverse_ref UKF_at_origin)
    as [Hl Hr].
  split.
  - apply Hl.
    + reflexivity.
    + apply (diagonal_positive_definite_2 _ _ UpdateLidar_S_at_origin); lra.
    + apply (inverse_ref_diagonal_2 _ _ UpdateLidar_S_at_origin); lra.
  - apply Hr.
    + reflexivity.
    + apply (diagonal_positive_definite_3 _ _ UpdateRadar_S_at_origin);
        cbn; lra.
    + apply (inverse_ref_diagonal_3 _ _ UpdateRadar_S_at_origin);
        cbn; lra.
Defined.

Lemma ignored_before_bootstrap_witness :
  ProcessMeasurement wrap_angle llt_ref inverse_ref
    (ProcessMeasurement wrap_angle llt_ref inverse_ref
       UKF_laser_only radar_at_1s)
    laser_at_3s
  = ProcessMeasurement wrap_angle llt_ref inverse_ref
      UKF_laser_only laser_at_3s.
Proof.
  pose proof (ignored_before_bootstrap wrap_angle llt_ref inverse_ref
                UKF_laser_only radar_at_1s eq_refl eq_refl) as H.
  cbv zeta in H. destruct H as (_ & _ & _ & _ & _ & H).
  destruct (H laser_at_3s eq_refl) as (_ & H2 & _). exact H2.
Defined.

(** ** The entry point: what every call does *)

Section Orchestration.

Variable NormalizeAngle : R -> R.
Variable llt : MatrixXd -> LLT.
Variable inverse : MatrixXd -> MatrixXd.

Local Abbreviation ProcessMeasurement' :=
  (ProcessMeasurement NormalizeAngle llt inverse).
Local Abbreviation Prediction' := (Prediction NormalizeAngle llt).
Local Abbreviation UpdateLidar' := (UpdateLidar NormalizeAngle inverse).
Local Abbreviation UpdateRadar' := (UpdateRadar NormalizeAngle inverse).

(** What the two updates write, in terms of the gain and the innovation. *)
Lemma UpdateLidar_writes (u : UKF) (m : MeasurementPackage) :
  UpdateLidar' u m
  = set_NIS_laser_
      ((transpose (UpdateLidar_z_diff u m) * inverse (UpdateLidar_S u)
        * UpdateLidar_z_diff u m)%M 0%Z 0%Z)
      (set_P_ (P_ u - UpdateLidar_K NormalizeAngle inverse u
                      * UpdateLidar_S u
                      * transpose (UpdateLidar_K NormalizeAngle inverse u))%M
         (set_x_ (x_ u + UpdateLidar_K NormalizeAngle inverse u
                         * UpdateLidar_z_diff u m)%M u)).
Proof. reflexivity. Qed.

Lemma UpdateRadar_writes (u : UKF) (m : MeasurementPackage) :
  UpdateRadar' u m
  = set_NIS_radar_
      ((transpose (UpdateRadar_z_diff NormalizeAngle u m)
        * inverse (UpdateRadar_S NormalizeAngle u)
        * UpdateRadar_z_diff NormalizeAngle u m)%M 0%Z 0%Z)
      (set_P_ (P_ u - UpdateRadar_K NormalizeAngle inverse u
                      * UpdateRadar_S NormalizeAngle u
                      * transpose (UpdateRadar_K NormalizeAngle inverse u))%M
         (set_x_ (x_ u + UpdateRadar_K NormalizeAngle inverse u
                         * UpdateRadar_z_diff NormalizeAngle u m)%M u)).
Proof. reflexivity. Qed.

(** Past initialisation a call predicts, then updates with the sensor's
    own update when the sensor is enabled. *)
Lemma ProcessMeasurement_ready (u : UKF) (m : MeasurementPackage) :
  is_initialized_ u = true ->
  let p := Prediction' (IZR (timestamp_ m - time_us_ u) / 1000000.0)
             (set_time_us_ (timestamp_ m) u) in
  ProcessMeasurement' u m
  = if sensor_enabled u (sensor_type_ m) then
      match sensor_type_ m with
      | RADAR => UpdateRadar' p m
      | LASER => UpdateLidar' p m
      end
    else p.
Proof.
  intros Hi p. unfold ProcessMeasurement. rewrite Hi. cbn [negb]. cbv zeta.
  fold p.
  destruct (Prediction_frame NormalizeAngle llt
              (IZR (timestamp_ m - time_us_ u) / 1000000.0)
              (set_time_us_ (timestamp_ m) u))
    as (_ & Hl & Hr & _).
  fold p in Hl, Hr. rewrite Hl, Hr.
  replace (use_radar_ (set_time_us_ (timestamp_ m) u)) with (use_radar_ u)
    by (destruct u; reflexivity).
  replace (use_laser_ (set_time_us_ (timestamp_ m) u)) with (use_laser_ u)
    by (destruct u; reflexivity).
  destruct (sensor_type_ m); cbn;
    rewrite ?andb_false_r, ?andb_true_r; cbn.
  - destruct (use_radar_ u), (use_laser_ u); reflexivity.
  - destruct (use_radar_ u); reflexivity.
Qed.

Lemma same_configuration_refl (u : UKF) : same_configuration u u.
Proof. repeat split. Qed.

Lemma same_configuration_trans (u v w : UKF) :
  same_configuration u v -> same_configuration v w -> same_configuration u w.
Proof.
  unfold same_configuration. intros Huv Hvw.
  repeat match goal with H : _ /\ _ |- _ => destruct H as [? H] end.
  repeat split; congruence.
Qed.

Lemma set_time_us_configuration (t : Z) (u : UKF) :
  same_configuration u (set_time_us_ t u).
Proof. destruct u; repeat split. Qed.

Lemma Prediction_configuration (delta_t : R) (u : UKF) :
  same_configuration u (Prediction' delta_t u).
Proof. destruct u; repeat split. Qed.

Lemma UpdateLidar_configuration (u : UKF) (m : MeasurementPackage) :
  same_configuration u (UpdateLidar' u m).
Proof. rewrite UpdateLidar_writes. destruct u; repeat split. Qed.

Lemma UpdateRadar_configuration (u : UKF) (m : MeasurementPackage) :
  same_configuration u (UpdateRadar' u m).
Proof. rewrite UpdateRadar_writes. destruct u; repeat split. Qed.

Lemma ProcessMeasurement_keeps_configuration (u : UKF)
    (m : MeasurementPackage) :
  same_configuration u (ProcessMeasurement' u m).
Proof.
  destruct (is_initialized_ u) eqn:Hi.
  - rewrite (ProcessMeasurement_ready u m Hi).
    assert (Hp : same_configuration u
                   (Prediction'
                      (IZR (timestamp_ m - time_us_ u) / 1000000.0)
                      (set_time_us_ (timestamp_ m) u))).
    { eapply same_configuration_trans;
        [apply set_time_us_configuration | apply Prediction_configuration]. }
    destruct (sensor_enabled u (sensor_type_ m)); [| exact Hp].
    destruct (sensor_type_ m);
      (eapply same_configuration_trans; [exact Hp |]);
      [apply UpdateLidar_configuration | apply UpdateRadar_configuration].
  - rewrite (ProcessMeasurement_uninitialized NormalizeAngle llt inverse
               u m Hi).
    destruct (sensor_enabled u (sensor_type_ m)); destruct u; repeat split.
Qed.


(** The members the two updates and the prediction leave alone, beside
    the configuration. *)
Lemma UpdateLidar_frame (u : UKF) (m : MeasurementPackage) :
  let u' := UpdateLidar' u m in
  is_initialized_ u' = is_initialized_ u
  /\ time_us_ u' = time_us_ u
  /\ NIS_radar_ u' = NIS_radar_ u
  /\ Xsig_pred_ u' = Xsig_pred_ u
  /\ weights_ u' = weights_ u.
Proof. rewrite UpdateLidar_writes. destruct u; repeat split. Qed.

Lemma UpdateRadar_frame (u : UKF) (m : MeasurementPackage) :
  let u' := UpdateRadar' u m in
  is_initialized_ u' = is_initialized_ u
  /\ time_us_ u' = time_us_ u
  /\ NIS_laser_ u' = NIS_laser_ u
  /\ Xsig_pred_ u' = Xsig_pred_ u
  /\ weights_ u' = weights_ u.
Proof. rewrite UpdateRadar_writes. destruct u; repeat split. Qed.

Lemma set_time_us_frame (t : Z) (u : UKF) :
  let u' := set_time_us_ t u in
  time_us_ u' = t
  /\ is_initialized_ u' = is_initialized_ u
  /\ NIS_radar_ u' = NIS_radar_ u
  /\ NIS_laser_ u' = NIS_laser_ u
  /\ x_ u' = x_ u
  /\ P_ u' = P_ u.
Proof. destruct u; repeat split. Qed.

(** X1.  Every call of [ProcessMeasurement] leaves the time stamp of its
    measurement in [time_us_], whatever the state of the filter and whether
    or not the sensor is enabled. *)
Theorem ProcessMeasurement_time_us (u : UKF) (m : MeasurementPackage) :
  time_us_ (ProcessMeasurement' u m) = timestamp_ m.
Proof.
  destruct (is_initialized_ u) eqn:Hi.
  - rewrite (ProcessMeasurement_ready u m Hi).
    assert (Hp : time_us_
                   (Prediction'
                      (IZR (timestamp_ m - time_us_ u) / 1000000.0)
                      (set_time_us_ (timestamp_ m) u)) = timestamp_ m).
    { destruct (Prediction_frame NormalizeAngle llt
                  (IZR (timestamp_ m - time_us_ u) / 1000000.0)
                  (set_time_us_ (timestamp_ m) u)) as (_ & _ & _ & -> & _).
      apply set_time_us_frame. }
    destruct (sensor_enabled u (sensor_type_ m)); [| exact Hp].
    destruct (sensor_type_ m).
    + destruct (UpdateLidar_frame
                  (Prediction'
                     (IZR (timestamp_ m - time_us_ u) / 1000000.0)
                     (set_time_us_ (timestamp_ m) u)) m) as (_ & -> & _).
      exact Hp.
    + destruct (UpdateRadar_frame
                  (Prediction'
                     (IZR (timestamp_ m - time_us_ u) / 1000000.0)
                     (set_time_us_ (timestamp_ m) u)) m) as (_ & -> & _).
      exact Hp.
  - rewrite (ProcessMeasurement_uninitialized NormalizeAngle llt inverse
               u m Hi).
    destruct (sensor_enabled u (sensor_type_ m)); destruct u; reflexivity.
Qed.

(** X2.  The filter is initialised after a call exactly when it was
    before or the measurement's sensor is enabled: an enabled measurement
    always initialises, a disabled one never does, and no call takes an
    initialised filter back. *)
Theorem ProcessMeasurement_is_initialized (u : UKF) (m : MeasurementPackage) :
  is_initialized_ (ProcessMeasurement' u m)
  = is_initialized_ u || sensor_enabled u (sensor_type_ m).
Proof.
  destruct (is_initialized_ u) eqn:Hi.
  - cbn [orb].
    apply (ProcessMeasurement_stays_initialized NormalizeAngle llt inverse
             u m Hi).
  - rewrite (ProcessMeasurement_uninitialized NormalizeAngle llt inverse
               u m Hi).
    cbn [orb].
    destruct (sensor_enabled u (sensor_type_ m)); destruct u; cbn in *;
      [reflexivity | exact Hi].
Qed.

(** X3.  No call of [ProcessMeasurement] changes the configuration of the
    filter: the two toggles, the five dimensions, the spreading parameter,
    the seven noise deviations and the two measurement noise matrices are
    after the call what they were before. *)
Theorem ProcessMeasurement_configuration (u : UKF) (m : MeasurementPackage) :
  same_configuration u (ProcessMeasurement' u m).
Proof. apply ProcessMeasurement_keeps_configuration. Qed.

(** X4.  A laser measurement never writes the radar's NIS and a radar
    measurement never writes the laser's; before initialisation neither is
    written. *)
Theorem NIS_written_by_own_sensor (u : UKF) (m : MeasurementPackage) :
  (sensor_type_ m = LASER ->
   NIS_radar_ (ProcessMeasurement' u m) = NIS_radar_ u)
  /\ (sensor_type_ m = RADAR ->
      NIS_laser_ (ProcessMeasurement' u m) = NIS_laser_ u)
  /\ (is_initialized_ u = false ->
      NIS_radar_ (ProcessMeasurement' u m) = NIS_radar_ u
      /\ NIS_laser_ (ProcessMeasurement' u m) = NIS_laser_ u).
Proof.
  assert (Hun : is_initialized_ u = false ->
            NIS_radar_ (ProcessMeasurement' u m) = NIS_radar_ u
            /\ NIS_laser_ (ProcessMeasurement' u m) = NIS_laser_ u).
  { intros Hi.
    rewrite (ProcessMeasurement_uninitialized NormalizeAngle llt inverse
               u m Hi).
    destruct (sensor_enabled u (sensor_type_ m)); destruct u; split;
      reflexivity. }
  assert (Hre : is_initialized_ u = true ->
            (sensor_type_ m = LASER ->
             NIS_radar_ (ProcessMeasurement' u m) = NIS_radar_ u)
            /\ (sensor_type_ m = RADAR ->
                NIS_laser_ (ProcessMeasurement' u m) = NIS_laser_ u)).
  { intros Hi. rewrite (ProcessMeasurement_ready u m Hi).
    set (p := Prediction' (IZR (timestamp_ m - time_us_ u) / 1000000.0)
                (set_time_us_ (timestamp_ m) u)).
    destruct (Prediction_frame NormalizeAngle llt
                (IZR (timestamp_ m - time_us_ u) / 1000000.0)
                (set_time_us_ (timestamp_ m) u))
      as (_ & _ & _ & _ & Hr & Hl).
    fold p in Hr, Hl.
    destruct (set_time_us_frame (timestamp_ m) u)
      as (_ & _ & Hr' & Hl' & _).
    rewrite Hr' in Hr. rewrite Hl' in Hl.
    split; intros Hs; rewrite Hs;
      destruct (sensor_enabled u _); try assumption.
    - destruct (UpdateLidar_frame p m) as (_ & _ & -> & _). exact Hr.
    - destruct (UpdateRadar_frame p m) as (_ & _ & -> & _). exact Hl. }
  destruct (is_initialized_ u) eqn:Hi.
  - destruct (Hre eq_refl) as [H1 H2].
    split; [exact H1 |]. split; [exact H2 | discriminate].
  - destruct (Hun eq_refl) as [H1 H2].
    split; [intros _; exact H1 |]. split; [intros _; exact H2 |].
    intros _. split; assumption.
Qed.

End Orchestration.

(** ** What holds of every filter a client can arrive at *)

Section Invariants.

Variable NormalizeAngle : R -> R.
Variable llt : MatrixXd -> LLT.
Variable inverse : MatrixXd -> MatrixXd.

Local Abbreviation ProcessMeasurement' :=
  (ProcessMeasurement NormalizeAngle llt inverse).
Local Abbreviation Prediction' := (Prediction NormalizeAngle llt).

(** The covariance a prediction writes is the result of its loop. *)
Lemma Prediction_P (delta_t : R) (u : UKF) :
  P_ (Prediction' delta_t u)
  = for_loop (n_sig_ u)
      (fun i A =>
         (A + (at_ (set_weights u) i
               *: predicted_residual NormalizeAngle llt delta_t u i)
              * transpose
                  (predicted_residual NormalizeAngle llt delta_t u i))%M)
      (fill 0.0 (Zero (n_x_ u) (n_x_ u))).
Proof. destruct u; reflexivity. Qed.

Lemma Prediction_dims (delta_t : R) (u : UKF) :
  let u' := Prediction' delta_t u in
  rows (x_ u') = n_x_ u /\ cols (x_ u') = 1%Z
  /\ rows (P_ u') = n_x_ u /\ cols (P_ u') = n_x_ u.
Proof.
  cbv zeta. rewrite Prediction_x, Prediction_P.
  split; [reflexivity |]. split; [reflexivity |].
  match goal with
  | |- rows (for_loop ?n ?b ?M) = _ /\ _ =>
      destruct (for_loop_dims b n M) as [-> ->]
  end; [| split; reflexivity].
  intros i A. split; reflexivity.
Qed.

Lemma ProcessMeasurement_state_shape (u : UKF) (m : MeasurementPackage) :
  n_x_ u = 5%Z -> state_shape u -> state_shape (ProcessMeasurement' u m).
Proof.
  intros Hn (Hx1 & Hx2 & HP1 & HP2).
  destruct (is_initialized_ u) eqn:Hi.
  - rewrite (ProcessMeasurement_ready NormalizeAngle llt inverse u m Hi).
    set (p := Prediction' (IZR (timestamp_ m - time_us_ u) / 1000000.0)
                (set_time_us_ (timestamp_ m) u)).
    assert (Hp : state_shape p).
    { destruct (Prediction_dims
                  (IZR (timestamp_ m - time_us_ u) / 1000000.0)
                  (set_time_us_ (timestamp_ m) u)) as (H1 & H2 & H3 & H4).
      fold p in H1, H2, H3, H4.
      replace (n_x_ (set_time_us_ (timestamp_ m) u)) with 5%Z in *
        by (destruct u; cbn in *; congruence).
      repeat split; assumption. }
    destruct (sensor_enabled u (sensor_type_ m)); [| exact Hp].
    destruct Hp as (H1 & H2 & H3 & H4).
    destruct (sensor_type_ m).
    + rewrite UpdateLidar_writes. destruct p; cbn in *.
      repeat split; assumption.
    + rewrite UpdateRadar_writes. destruct p; cbn in *.
      repeat split; assumption.
  - rewrite (ProcessMeasurement_uninitialized NormalizeAngle llt inverse
               u m Hi).
    destruct (sensor_enabled u (sensor_type_ m)).
    + destruct (sensor_type_ m); destruct u; cbn in *;
        repeat split; assumption.
    + destruct u; cbn in *. repeat split; assumption.
Qed.

(** The dimensions and the spreading parameter of the constructor are
    kept. *)
Lemma reachable_dimensions (u : UKF) :
  reachable NormalizeAngle llt inverse u ->
  n_aug_ u = 7%Z /\ n_sig_ u = 15%Z /\ lambda_ u = -4.
Proof.
  induction 1 as [| b u Hu IH | b u Hu IH | u m Hu IH].
  - repeat split.
  - destruct u; exact IH.
  - destruct u; exact IH.
  - destruct (ProcessMeasurement_keeps_configuration NormalizeAngle llt
                inverse u m)
      as (_ & _ & _ & _ & _ & _ & _ & _ & _ & _ & C2 & C3 & _ & _ & C6 & _).
    rewrite C2, C3, C6. exact IH.
Qed.

(** X5.  In every filter a client can arrive at, the dimensions, the
    spreading parameter and the measurement noise are those of the
    constructor, the state vector is 5 by 1 and the covariance 5 by 5. *)
Theorem reachable_invariant (u : UKF) :
  reachable NormalizeAngle llt inverse u ->
  n_x_ u = 5%Z /\ n_aug_ u = 7%Z /\ n_sig_ u = 15%Z
  /\ n_z_radar_ u = 3%Z /\ n_z_laser_ u = 2%Z
  /\ lambda_ u = -4
  /\ R_lidar_ u = R_lidar_ UKF_new /\ R_radar_ u = R_radar_ UKF_new
  /\ rows (x_ u) = 5%Z /\ cols (x_ u) = 1%Z
  /\ rows (P_ u) = 5%Z /\ cols (P_ u) = 5%Z.
Proof.
  induction 1 as [| b u Hu IH | b u Hu IH | u m Hu IH].
  - repeat split.
  - destruct u; exact IH.
  - destruct u; exact IH.
  - destruct IH as (H1 & H2 & H3 & H4 & H5 & H6 & H7 & H8 & Hs).
    destruct (ProcessMeasurement_keeps_configuration NormalizeAngle llt
                inverse u m)
      as (_ & _ & _ & _ & _ & _ & _ & _ & _ & C1 & C2 & C3 & C4 & C5 & C6
          & C7 & C8).
    rewrite C1, C2, C3, C4, C5, C6, C7, C8.
    repeat (split; [assumption |]).
    apply ProcessMeasurement_state_shape; assumption.
Qed.

End Invariants.

(** ** The prediction step *)

Section PredictionStep.

Variable NormalizeAngle : R -> R.
Variable llt : MatrixXd -> LLT.
Variable inverse : MatrixXd -> MatrixXd.

Local Abbreviation Prediction' := (Prediction NormalizeAngle llt).

(** The fifteen columns, rewritten in one go. *)
Ltac sigma_columns u Ha :=
  let H0 := fresh "H0" in
  let Hp := fresh "Hp" in
  let Hm := fresh "Hm" in
  destruct (AugmentedSigmaPoints_columns llt u Ha) as (H0 & Hp & Hm);
  rewrite ?H0;
  rewrite ?(Hp 1%Z), ?(Hp 2%Z), ?(Hp 3%Z), ?(Hp 4%Z), ?(Hp 5%Z),
    ?(Hp 6%Z), ?(Hp 7%Z) by lia;
  rewrite ?(Hm 8%Z), ?(Hm 9%Z), ?(Hm 10%Z), ?(Hm 11%Z), ?(Hm 12%Z),
    ?(Hm 13%Z), ?(Hm 14%Z) by lia.

(** The weighted sum of a row of the sigma points is the mean of the
    row. *)
Lemma sigma_points_weighted_row (u : UKF) (r : Z) :
  n_aug_ u = 7%Z ->
  n_sig_ u = 15%Z ->
  lambda_ u = -4 ->
  sum_upto 15 (fun i => at_ (set_weights u) i * AugmentedSigmaPoints llt u r i)
  = at_ (x_aug_of u) r.
Proof.
  intros Ha Hs Hl. rewrite sum_upto_15.
  sigma_columns u Ha.
  unfold set_weights. rewrite Hs, Hl, Ha. unfold at_. cbn.
  replace 0.5 with (/ 2) by lra. field.
Qed.

(** The weighted scatter of two rows of the sigma points about their
    means. *)
Lemma sigma_points_weighted_scatter (u : UKF) (r c : Z) :
  n_aug_ u = 7%Z ->
  n_sig_ u = 15%Z ->
  lambda_ u = -4 ->
  sum_upto 15
    (fun i => at_ (set_weights u) i
              * (AugmentedSigmaPoints llt u r i - at_ (x_aug_of u) r)
              * (AugmentedSigmaPoints llt u c i - at_ (x_aug_of u) c))
  = sum_upto 7
      (fun j => matrixL (llt (P_aug_of u)) r j
                * matrixL (llt (P_aug_of u)) c j).
Proof.
  intros Ha Hs Hl. rewrite sum_upto_15, sum_upto_7.
  sigma_columns u Ha.
  unfold set_weights. rewrite Hs, Hl, Ha. unfold at_. cbn.
  replace 0.5 with (/ 2) by lra.
  replace (-4 + 7) with 3 by lra.
  assert (Hsq : sqrt 3 * sqrt 3 = 3) by (apply sqrt_sqrt; lra).
  set (s := sqrt 3) in *.
  match goal with
  | |- _ = ?rhs =>
      transitivity (s * s / 3 * rhs); [field | rewrite Hsq; field]
  end.
Qed.

(** X6.  The sigma points and the weights carry the mean and the
    covariance they were built from: in each of the seven rows the weighted
    sum of the fifteen columns is the augmented mean, and the weighted
    scatter of the columns about the mean is [L L^T], for the factor [L]
    the factorisation returned. *)
Theorem sigma_points_carry_mean_and_covariance (u : UKF) :
  n_aug_ u = 7%Z ->
  n_sig_ u = 15%Z ->
  lambda_ u = -4 ->
  let X := AugmentedSigmaPoints llt u in
  let L := matrixL (llt (P_aug_of u)) in
  let w := set_weights u in
  (forall r, (0 <= r < 7)%Z ->
     sum_upto 15 (fun i => at_ w i * X r i) = at_ (x_aug_of u) r)
  /\ (forall r c, (0 <= r < 7)%Z -> (0 <= c < 7)%Z ->
        sum_upto 15
          (fun i => at_ w i * (X r i - at_ (x_aug_of u) r)
                    * (X c i - at_ (x_aug_of u) c))
        = sum_upto 7 (fun j => L r j * L c j)).
Proof.
  intros Ha Hs Hl X L w. split.
  - intros r _. apply sigma_points_weighted_row; assumption.
  - intros r c _ _. apply sigma_points_weighted_scatter; assumption.
Qed.

(** X7.  Speed, heading and heading rate of a propagated sigma point: the
    speed gains the acceleration noise times the elapsed time, the heading
    turns by the heading rate and by half the yaw acceleration noise times
    the elapsed time squared, and the heading rate gains the yaw
    acceleration noise times the elapsed time; none depends on the branch
    taken for the position. *)
Theorem ctrv_motion_model_linear_rows (u : UKF) (Xsig_aug : MatrixXd)
    (delta_t : R) (i : Z) :
  (0 <= i < n_sig_ u)%Z ->
  let v := Xsig_aug 2%Z i in
  let yaw := Xsig_aug 3%Z i in
  let yawd := Xsig_aug 4%Z i in
  let nu_a := Xsig_aug 5%Z i in
  let nu_yawdd := Xsig_aug 6%Z i in
  let Xsig_pred := SigmaPointPrediction u Xsig_aug delta_t in
  Xsig_pred 2%Z i = v + nu_a * delta_t
  /\ Xsig_pred 3%Z i
     = yaw + yawd * delta_t + 0.5 * nu_yawdd * delta_t * delta_t
  /\ Xsig_pred 4%Z i = yawd + nu_yawdd * delta_t.
Proof.
  intros Hi v yaw yawd nu_a nu_yawdd Xsig_pred. subst Xsig_pred.
  rewrite !SigmaPointPrediction_column by lia.
  cbn. rewrite Z.eqb_refl. repeat split.
Qed.

(** With no time elapsed a sigma point stays where it is. *)
Lemma SigmaPointPrediction_zero_time (u : UKF) (X : MatrixXd) (r i : Z) :
  (0 <= i < n_sig_ u)%Z -> (0 <= r < 5)%Z ->
  SigmaPointPrediction u X 0 r i = X r i.
Proof.
  intros Hi Hr. rewrite SigmaPointPrediction_column by lia.
  assert (r = 0 \/ r = 1 \/ r = 2 \/ r = 3 \/ r = 4)%Z
    as [-> | [-> | [-> | [-> | ->]]]] by lia;
    cbn; rewrite Z.eqb_refl; cbn;
    try (destruct (Rgt_dec _ _); cbn;
         rewrite ?Rmult_0_r, ?Rplus_0_r, ?Rminus_diag);
    try lra; ring.
Qed.


(** The predicted mean, row by row, as a weighted sum of the predicted
    sigma points. *)
Lemma Prediction_mean_row (delta_t : R) (u : UKF) (r : Z) :
  n_sig_ u = 15%Z ->
  at_ (x_ (Prediction' delta_t u)) r
  = sum_upto 15
      (fun i => at_ (set_weights u) i * predicted_points llt delta_t u r i).
Proof.
  intros Hs. rewrite Prediction_x. unfold at_.
  cbn [add mul coeff fill Zero rows cols].
  destruct (SigmaPointPrediction_dims u (AugmentedSigmaPoints llt u) delta_t)
    as [_ ->].
  rewrite Hs. unfold predicted_points.
  rewrite (sum_upto_ext 15 _
             (fun i => set_weights u i 0%Z
                       * SigmaPointPrediction u (AugmentedSigmaPoints llt u)
                           delta_t r i))
    by (intros; ring).
  lra.
Qed.

(** The noise columns cancel in the mean of the heading rate. *)
Lemma Prediction_yawd (delta_t : R) (u : UKF) :
  n_aug_ u = 7%Z ->
  n_sig_ u = 15%Z ->
  lambda_ u = -4 ->
  at_ (x_ (Prediction' delta_t u)) 4 = at_ (x_ u) 4.
Proof.
  intros Ha Hs Hl.
  rewrite Prediction_mean_row by assumption.
  rewrite sum_upto_15. unfold predicted_points.
  assert (H4 : forall i, (0 <= i < 15)%Z ->
            SigmaPointPrediction u (AugmentedSigmaPoints llt u) delta_t
              4%Z i
            = AugmentedSigmaPoints llt u 4%Z i
              + AugmentedSigmaPoints llt u 6%Z i * delta_t).
  { intros i Hi. rewrite SigmaPointPrediction_column by lia.
    cbn. rewrite Z.eqb_refl. reflexivity. }
  rewrite !H4 by lia.
  sigma_columns u Ha.
  unfold set_weights. rewrite Hs, Hl, Ha. unfold at_. cbn.
  replace 0.5 with (/ 2) by lra. field.
Qed.

(** X8.  The predicted mean of the speed is the speed, that of the heading
    is the heading advanced by the heading rate over the elapsed time, and
    that of the heading rate is the heading rate: the noise columns cancel,
    whatever factor the factorisation returned. *)
Theorem Prediction_linear_means (delta_t : R) (u : UKF) :
  n_aug_ u = 7%Z ->
  n_sig_ u = 15%Z ->
  lambda_ u = -4 ->
  let u' := Prediction' delta_t u in
  at_ (x_ u') 2 = at_ (x_ u) 2
  /\ at_ (x_ u') 3 = at_ (x_ u) 3 + at_ (x_ u) 4 * delta_t
  /\ at_ (x_ u') 4 = at_ (x_ u) 4.
Proof.
  intros Ha Hs Hl u'. subst u'.
  split; [apply Prediction_speed; assumption |].
  split; [apply Prediction_yaw; assumption |].
  apply Prediction_yawd; assumption.
Qed.

(** The residuals of the covariance loop, away from the heading row. *)
Lemma predicted_residual_row (delta_t : R) (u : UKF) (i r : Z) :
  r <> 3%Z ->
  at_ (predicted_residual NormalizeAngle llt delta_t u i) r
  = predicted_points llt delta_t u r i - at_ (x_ (Prediction' delta_t u)) r.
Proof.
  intros Hr. unfold predicted_residual, normalize_at, at_.
  cbn [set_coeff sub col coeff].
  replace (r =? 3)%Z with false by (symmetry; apply Z.eqb_neq; exact Hr).
  reflexivity.
Qed.

(** With no time elapsed the predicted sigma points are the state part of
    the sigma points, and the predicted mean is the state. *)
Lemma predicted_points_zero_time (u : UKF) (r i : Z) :
  n_sig_ u = 15%Z -> (0 <= r < 5)%Z -> (0 <= i < 15)%Z ->
  predicted_points llt 0 u r i = AugmentedSigmaPoints llt u r i.
Proof.
  intros Hs Hr Hi. unfold predicted_points.
  apply SigmaPointPrediction_zero_time; lia.
Qed.

Lemma x_aug_of_state (u : UKF) (r : Z) :
  (0 <= r < 5)%Z -> at_ (x_aug_of u) r = at_ (x_ u) r.
Proof.
  intros Hr.
  assert (r = 0 \/ r = 1 \/ r = 2 \/ r = 3 \/ r = 4)%Z
    as [-> | [-> | [-> | [-> | ->]]]] by lia; reflexivity.
Qed.

Lemma Prediction_mean_zero_time (u : UKF) (r : Z) :
  n_aug_ u = 7%Z ->
  n_sig_ u = 15%Z ->
  lambda_ u = -4 ->
  (0 <= r < 5)%Z ->
  at_ (x_ (Prediction' 0 u)) r = at_ (x_ u) r.
Proof.
  intros Ha Hs Hl Hr. rewrite Prediction_mean_row by assumption.
  rewrite (sum_upto_ext 15 _
             (fun i => at_ (set_weights u) i
                       * AugmentedSigmaPoints llt u r i))
    by (intros i Hi; rewrite predicted_points_zero_time by lia;
        reflexivity).
  rewrite sigma_points_weighted_row by assumption.
  apply x_aug_of_state, Hr.
Qed.

(** X9.  A prediction over no elapsed time leaves the state vector where
    it is; and where the factorisation returned a factor of the augmented
    covariance, it leaves the covariance where it is too, away from the
    heading row and column (which the angle wrap may touch). *)
Theorem Prediction_zero_time (u : UKF) :
  n_aug_ u = 7%Z ->
  n_sig_ u = 15%Z ->
  lambda_ u = -4 ->
  let u' := Prediction' 0 u in
  let L := matrixL (llt (P_aug_of u)) in
  (forall r, (0 <= r < 5)%Z -> at_ (x_ u') r = at_ (x_ u) r)
  /\ ((forall r c, (0 <= r < 5)%Z -> (0 <= c < 5)%Z ->
         sum_upto 7 (fun j => L r j * L c j) = P_ u r c) ->
      forall r c, (0 <= r < 5)%Z -> (0 <= c < 5)%Z ->
        r <> 3%Z -> c <> 3%Z -> P_ u' r c = P_ u r c).
Proof.
  intros Ha Hs Hl u' L. subst u'.
  split; [intros r Hr; apply Prediction_mean_zero_time; assumption |].
  intros HL r c Hr Hc Hr3 Hc3.
  rewrite Prediction_P_coeff by lia. rewrite Hs.
  rewrite (sum_upto_ext 15 _
             (fun i => at_ (set_weights u) i
                       * (AugmentedSigmaPoints llt u r i - at_ (x_aug_of u) r)
                       * (AugmentedSigmaPoints llt u c i
                          - at_ (x_aug_of u) c))).
  2:{ intros i Hi. rewrite !predicted_residual_row by assumption.
      rewrite !predicted_points_zero_time by lia.
      rewrite !Prediction_mean_zero_time, !x_aug_of_state by assumption.
      reflexivity. }
  rewrite sigma_points_weighted_scatter by assumption.
  fold L. rewrite HL by lia. lra.
Qed.

(** X10.  The covariance a prediction writes is symmetric, for every
    filter and every elapsed time. *)
Theorem Prediction_covariance_symmetric (delta_t : R) (u : UKF) :
  symmetric (n_x_ u) (P_ (Prediction' delta_t u)).
Proof.
  intros r c _ _.
  destruct (Z_le_gt_dec 0 (n_sig_ u)) as [Hn | Hn].
  - rewrite !Prediction_P_coeff by exact Hn.
    f_equal. apply sum_upto_ext. intros i _. ring.
  - rewrite Prediction_P. rewrite for_loop_nonpos by lia. reflexivity.
Qed.

(** The speed and the heading rate of a predicted sigma point: its own
    plus the elapsed time times its noise component. *)
Lemma predicted_points_rate (delta_t : R) (u : UKF) (a na i : Z) :
  (a = 2 /\ na = 5)%Z \/ (a = 4 /\ na = 6)%Z ->
  (0 <= i < n_sig_ u)%Z ->
  predicted_points llt delta_t u a i
  = AugmentedSigmaPoints llt u a i
    + AugmentedSigmaPoints llt u na i * delta_t.
Proof.
  intros Hr Hi. unfold predicted_points.
  rewrite SigmaPointPrediction_column by lia.
  destruct Hr as [[-> ->] | [-> ->]]; cbn; rewrite Z.eqb_refl; reflexivity.
Qed.

(** The predicted covariance of the speed and the heading rate, in terms of
    the factor the factorisation returned. *)
Lemma Prediction_P_rate_rows (delta_t : R) (u : UKF) (a na b nb : Z) :
  n_aug_ u = 7%Z ->
  n_sig_ u = 15%Z ->
  lambda_ u = -4 ->
  (a = 2 /\ na = 5)%Z \/ (a = 4 /\ na = 6)%Z ->
  (b = 2 /\ nb = 5)%Z \/ (b = 4 /\ nb = 6)%Z ->
  let L := matrixL (llt (P_aug_of u)) in
  let LL := fun r c => sum_upto 7 (fun j => L r j * L c j) in
  P_ (Prediction' delta_t u) a b
  = LL a b + delta_t * (LL a nb + LL na b) + delta_t * delta_t * LL na nb.
Proof.
  intros Ha Hs Hl Hra Hrb L LL.
  assert (Hmean : forall r nr, (r = 2 /\ nr = 5)%Z \/ (r = 4 /\ nr = 6)%Z ->
            at_ (x_ (Prediction' delta_t u)) r = at_ (x_aug_of u) r
            /\ at_ (x_aug_of u) nr = 0 /\ r <> 3%Z).
  { intros r nr [[-> ->] | [-> ->]].
    - rewrite Prediction_speed by assumption.
      split; [reflexivity |]. split; [reflexivity | lia].
    - rewrite Prediction_yawd by assumption.
      split; [reflexivity |]. split; [reflexivity | lia]. }
  destruct (Hmean a na Hra) as (Hxa & Hna & Ha3).
  destruct (Hmean b nb Hrb) as (Hxb & Hnb & Hb3).
  rewrite Prediction_P_coeff by lia. rewrite Hs.
  set (X := AugmentedSigmaPoints llt u).
  set (m := x_aug_of u) in *.
  rewrite (sum_upto_ext 15 _
             (fun i => at_ (set_weights u) i
                       * ((X a i - at_ m a) + delta_t * (X na i - at_ m na))
                       * ((X b i - at_ m b)
                          + delta_t * (X nb i - at_ m nb)))).
  2:{ intros i Hi. rewrite !predicted_residual_row by assumption.
      rewrite (predicted_points_rate delta_t u a na i Hra),
        (predicted_points_rate delta_t u b nb i Hrb) by lia.
      fold X. rewrite Hxa, Hxb, Hna, Hnb. ring. }
  unfold LL, L.
  rewrite <- !sigma_points_weighted_scatter by assumption.
  fold X m. rewrite !sum_upto_15. replace 0.0 with 0 by lra. ring.
Qed.

(** X21.  The process noise in the predicted covariance: when the
    factorisation returned a factor of the augmented covariance, a
    prediction adds the variance of the acceleration noise times the
    elapsed time squared to the variance of the speed, and that of the yaw
    acceleration noise to the variance of the heading rate, and it leaves
    their covariance as it was. *)
Theorem Prediction_process_noise (delta_t : R) (u : UKF) :
  n_aug_ u = 7%Z ->
  n_sig_ u = 15%Z ->
  lambda_ u = -4 ->
  let L := matrixL (llt (P_aug_of u)) in
  (forall r c, (0 <= r < 7)%Z -> (0 <= c < 7)%Z ->
     sum_upto 7 (fun j => L r j * L c j) = P_aug_of u r c) ->
  let P' := P_ (Prediction' delta_t u) in
  P' 2%Z 2%Z = P_ u 2%Z 2%Z + delta_t * delta_t * (std_a_ u * std_a_ u)
  /\ P' 4%Z 4%Z
     = P_ u 4%Z 4%Z + delta_t * delta_t * (std_yawdd_ u * std_yawdd_ u)
  /\ P' 2%Z 4%Z = P_ u 2%Z 4%Z
  /\ P' 4%Z 2%Z = P_ u 4%Z 2%Z.
Proof.
  intros Ha Hs Hl L HL P'. subst P'.
  rewrite (Prediction_P_rate_rows delta_t u 2 5 2 5),
    (Prediction_P_rate_rows delta_t u 4 6 4 6),
    (Prediction_P_rate_rows delta_t u 2 5 4 6),
    (Prediction_P_rate_rows delta_t u 4 6 2 5) by (assumption || lia).
  fold L. rewrite !HL by lia.
  unfold P_aug_of. cbn. repeat split; lra.
Qed.

End PredictionStep.

(** ** The update step *)

Section UpdateStep.

Variable NormalizeAngle : R -> R.
Variable llt : MatrixXd -> LLT.
Variable inverse : MatrixXd -> MatrixXd.

Local Abbreviation Prediction' := (Prediction NormalizeAngle llt).
Local Abbreviation UpdateLidar' := (UpdateLidar NormalizeAngle inverse).
Local Abbreviation UpdateRadar' := (UpdateRadar NormalizeAngle inverse).

(** The predicted laser measurement, the innovation covariance and the
    cross-correlation, entry by entry. *)
Lemma UpdateLidar_z_pred_coeff (u : UKF) (r : Z) :
  (0 <= n_sig_ u)%Z ->
  UpdateLidar_z_pred u r 0%Z
  = 0.0 + sum_upto (n_sig_ u)
            (fun i => at_ (weights_ u) i * Xsig_pred_ u r i).
Proof.
  intros Hn. unfold UpdateLidar_z_pred.
  apply (for_loop_accumulate
           (fun i => (at_ (weights_ u) i *: col i (UpdateLidar_Zsig u))%M)
           (fill 0.0 (Zero (n_z_laser_ u) 1)) (n_sig_ u) r 0 Hn).
Qed.

Lemma UpdateLidar_S_coeff (u : UKF) (r c : Z) :
  (0 <= n_sig_ u)%Z ->
  UpdateLidar_S u r c
  = 0.0
    + sum_upto (n_sig_ u)
        (fun i => at_ (weights_ u) i
                  * (Xsig_pred_ u r i - at_ (UpdateLidar_z_pred u) r)
                  * (Xsig_pred_ u c i - at_ (UpdateLidar_z_pred u) c))
    + R_lidar_ u r c.
Proof.
  intros Hn.
  transitivity
    (for_loop (n_sig_ u)
       (fun i A =>
          (A + (at_ (weights_ u) i
                *: (col i (UpdateLidar_Zsig u) - UpdateLidar_z_pred u))
               * transpose
                   (col i (UpdateLidar_Zsig u) - UpdateLidar_z_pred u))%M)
       (fill 0.0 (Zero (n_z_laser_ u) (n_z_laser_ u))) r c
     + R_lidar_ u r c); [reflexivity |].
  rewrite for_loop_accumulate by exact Hn.
  cbn [fill coeff]. f_equal. f_equal. apply sum_upto_ext. intros i _.
  cbn [mul scale transpose coeff cols rows sub col].
  rewrite sum_upto_1. unfold at_. cbn. ring.
Qed.

Lemma UpdateLidar_Tc_coeff (u : UKF) (r c : Z) :
  (0 <= n_sig_ u)%Z ->
  UpdateLidar_Tc NormalizeAngle u r c
  = 0.0
    + sum_upto (n_sig_ u)
        (fun i => at_ (weights_ u) i
                  * at_ (normalize_at NormalizeAngle 3
                           (col i (Xsig_pred_ u) - x_ u)%M) r
                  * (Xsig_pred_ u c i - at_ (UpdateLidar_z_pred u) c)).
Proof.
  intros Hn.
  transitivity
    (for_loop (n_sig_ u)
       (fun i A =>
          (A + (at_ (weights_ u) i
                *: normalize_at NormalizeAngle 3
                     (col i (Xsig_pred_ u) - x_ u))
               * transpose
                   (col i (UpdateLidar_Zsig u) - UpdateLidar_z_pred u))%M)
       (fill 0.0 (Zero (n_x_ u) (n_z_laser_ u))) r c); [reflexivity |].
  rewrite for_loop_accumulate by exact Hn.
  cbn [fill coeff]. f_equal. apply sum_upto_ext. intros i _.
  cbn [mul scale transpose coeff cols rows].
  unfold normalize_at at 1. cbn [set_coeff cols sub col].
  rewrite sum_upto_1. unfold at_. cbn. ring.
Qed.

Lemma Prediction_fields (delta_t : R) (u : UKF) :
  let u' := Prediction' delta_t u in
  Xsig_pred_ u' = predicted_points llt delta_t u
  /\ weights_ u' = set_weights u
  /\ n_sig_ u' = n_sig_ u
  /\ R_lidar_ u' = R_lidar_ u.
Proof. destruct u; repeat split. Qed.

(** Straight after a prediction the predicted laser measurement is the
    predicted state, row by row. *)
Lemma UpdateLidar_z_pred_after_Prediction (delta_t : R) (u : UKF) (r : Z) :
  (0 <= n_sig_ u)%Z ->
  at_ (UpdateLidar_z_pred (Prediction' delta_t u)) r
  = at_ (x_ (Prediction' delta_t u)) r.
Proof.
  intros Hn.
  destruct (Prediction_fields delta_t u) as (HX & Hw & Hs & HR).
  unfold at_ at 1. rewrite UpdateLidar_z_pred_coeff by (rewrite Hs; exact Hn).
  rewrite HX, Hw, Hs. rewrite Prediction_x. unfold at_.
  cbn [add mul coeff fill Zero rows cols].
  destruct (SigmaPointPrediction_dims u (AugmentedSigmaPoints llt u)
              delta_t) as [_ ->].
  f_equal. apply sum_upto_ext. intros i _. unfold predicted_points. ring.
Qed.

(** X11.  Straight after a prediction the laser update is the linear
    Kalman update: the predicted measurement is the predicted position, the
    innovation covariance is the position block of the predicted covariance
    plus the laser noise, and the cross-correlation is the two position
    columns of the predicted covariance. *)
Theorem UpdateLidar_after_Prediction (delta_t : R) (u : UKF) :
  n_z_laser_ u = 2%Z ->
  (0 <= n_sig_ u)%Z ->
  let u' := Prediction' delta_t u in
  (forall r, (0 <= r < 2)%Z ->
     at_ (UpdateLidar_z_pred u') r = at_ (x_ u') r)
  /\ (forall r c, (0 <= r < 2)%Z -> (0 <= c < 2)%Z ->
        UpdateLidar_S u' r c = P_ u' r c + R_lidar_ u r c)
  /\ (forall r c, (0 <= r < n_x_ u)%Z -> (0 <= c < 2)%Z ->
        UpdateLidar_Tc NormalizeAngle u' r c = P_ u' r c).
Proof.
  intros _ Hn u'.
  destruct (Prediction_fields delta_t u) as (HX & Hw & Hs & HR).
  fold u' in HX, Hw, Hs, HR.
  assert (Hn' : (0 <= n_sig_ u')%Z) by (rewrite Hs; exact Hn).
  assert (Hz : forall r, at_ (UpdateLidar_z_pred u') r = at_ (x_ u') r)
    by (intros r; apply UpdateLidar_z_pred_after_Prediction, Hn).
  split; [intros r _; apply Hz |]. split.
  - intros r c Hr Hc. rewrite UpdateLidar_S_coeff by exact Hn'.
    rewrite HX, Hw, Hs, HR, !Hz. unfold u'.
    rewrite Prediction_P_coeff by exact Hn.
    f_equal. f_equal. apply sum_upto_ext. intros i _.
    rewrite !predicted_residual_row by lia. reflexivity.
  - intros r c _ Hc. rewrite UpdateLidar_Tc_coeff by exact Hn'.
    rewrite HX, Hw, Hs, !Hz. unfold u'.
    rewrite Prediction_P_coeff by exact Hn.
    f_equal. apply sum_upto_ext. intros i _.
    rewrite (predicted_residual_row NormalizeAngle llt delta_t u i c)
      by lia.
    reflexivity.
Qed.

(** The innovation covariance has the size of the measurement. *)
Lemma UpdateLidar_S_cols (u : UKF) : cols (UpdateLidar_S u) = n_z_laser_ u.
Proof.
  unfold UpdateLidar_S. cbv zeta. cbn [add cols].
  match goal with
  | |- cols (for_loop ?n ?b ?M) = _ =>
      destruct (for_loop_dims b n M) as [_ ->];
        [intros; split; reflexivity | reflexivity]
  end.
Qed.

Lemma UpdateRadar_S_cols (u : UKF) :
  cols (UpdateRadar_S NormalizeAngle u) = n_z_radar_ u.
Proof.
  unfold UpdateRadar_S. cbv zeta. cbn [add cols].
  match goal with
  | |- cols (for_loop ?n ?b ?M) = _ =>
      destruct (for_loop_dims b n M) as [_ ->];
        [intros; split; reflexivity | reflexivity]
  end.
Qed.

(** X12.  The innovation covariance of either update is symmetric
    when the measurement noise matrix is. *)
Theorem innovation_covariance_symmetric (u : UKF) :
  (symmetric (n_z_laser_ u) (R_lidar_ u) ->
   symmetric (n_z_laser_ u) (UpdateLidar_S u))
  /\ (symmetric (n_z_radar_ u) (R_radar_ u) ->
      symmetric (n_z_radar_ u) (UpdateRadar_S NormalizeAngle u)).
Proof.
  split; intros HR i j Hi Hj.
  - destruct (Z_le_gt_dec 0 (n_sig_ u)) as [Hn | Hn].
    + rewrite !UpdateLidar_S_coeff by exact Hn. rewrite (HR i j Hi Hj).
      f_equal. f_equal. apply sum_upto_ext. intros k _. ring.
    + unfold UpdateLidar_S. rewrite for_loop_nonpos by lia.
      cbn [add fill coeff]. rewrite (HR i j Hi Hj). reflexivity.
  - destruct (Z_le_gt_dec 0 (n_sig_ u)) as [Hn | Hn].
    + rewrite !UpdateRadar_S_coeff by exact Hn. rewrite (HR i j Hi Hj).
      f_equal. f_equal. apply sum_upto_ext. intros k _. ring.
    + unfold UpdateRadar_S. rewrite for_loop_nonpos by lia.
      cbn [add fill coeff]. rewrite (HR i j Hi Hj). reflexivity.
Qed.

(** The correction [K S K^T] of the covariance, entry by entry. *)
Lemma gain_form_coeff (K S : MatrixXd) (n r c : Z) :
  cols S = n -> cols K = n ->
  (K * S * transpose K)%M r c
  = sum_upto n (fun k => sum_upto n (fun j => K r j * S j k * K c k)).
Proof.
  intros HS HK. cbn [mul transpose coeff rows cols]. rewrite HS, HK.
  apply sum_upto_ext. intros k _.
  rewrite Rmult_comm, <- sum_upto_scal. apply sum_upto_ext. intros; ring.
Qed.

Lemma gain_form_symmetric (K S : MatrixXd) (n r c : Z) :
  cols S = n -> cols K = n -> symmetric n S ->
  (K * S * transpose K)%M r c = (K * S * transpose K)%M c r.
Proof.
  intros HS HK Hsym.
  rewrite (gain_form_coeff K S n r c HS HK),
    (gain_form_coeff K S n c r HS HK).
  rewrite sum_upto_swap. apply sum_upto_ext. intros j Hj.
  apply sum_upto_ext. intros k Hk. rewrite (Hsym j k Hj Hk). ring.
Qed.

(** The correction has no negative diagonal entry when [S] is positive
    definite. *)
Lemma gain_form_diagonal_nonneg (K S : MatrixXd) (n r : Z) :
  cols S = n -> cols K = n -> positive_definite n S ->
  0 <= (K * S * transpose K)%M r r.
Proof.
  intros HS HK Hpd. rewrite (gain_form_coeff K S n r r HS HK).
  rewrite sum_upto_swap.
  destruct (all_zero_or_not n (fun j => K r j)) as [H0 | Hex].
  - right. symmetry.
    rewrite (sum_upto_ext n _ (fun _ => 0)); [apply sum_upto_zero |].
    intros j Hj. rewrite (sum_upto_ext n _ (fun _ => 0));
      [apply sum_upto_zero |].
    intros k _. rewrite (H0 j Hj). ring.
  - left. apply (Hpd (mk n 1 (fun j _ => K r j))). exact Hex.
Qed.

Lemma UpdateLidar_P (u : UKF) (m : MeasurementPackage) :
  P_ (UpdateLidar' u m)
  = (P_ u - UpdateLidar_K NormalizeAngle inverse u * UpdateLidar_S u
            * transpose (UpdateLidar_K NormalizeAngle inverse u))%M.
Proof. rewrite UpdateLidar_writes. destruct u; reflexivity. Qed.

Lemma UpdateRadar_P (u : UKF) (m : MeasurementPackage) :
  P_ (UpdateRadar' u m)
  = (P_ u - UpdateRadar_K NormalizeAngle inverse u
            * UpdateRadar_S NormalizeAngle u
            * transpose (UpdateRadar_K NormalizeAngle inverse u))%M.
Proof. rewrite UpdateRadar_writes. destruct u; reflexivity. Qed.

Lemma UpdateLidar_x (u : UKF) (m : MeasurementPackage) :
  x_ (UpdateLidar' u m)
  = (x_ u + UpdateLidar_K NormalizeAngle inverse u
            * UpdateLidar_z_diff u m)%M.
Proof. rewrite UpdateLidar_writes. destruct u; reflexivity. Qed.

Lemma UpdateRadar_x (u : UKF) (m : MeasurementPackage) :
  x_ (UpdateRadar' u m)
  = (x_ u + UpdateRadar_K NormalizeAngle inverse u
            * UpdateRadar_z_diff NormalizeAngle u m)%M.
Proof. rewrite UpdateRadar_writes. destruct u; reflexivity. Qed.

Lemma UpdateLidar_NIS (u : UKF) (m : MeasurementPackage) :
  NIS_laser_ (UpdateLidar' u m)
  = (transpose (UpdateLidar_z_diff u m) * inverse (UpdateLidar_S u)
     * UpdateLidar_z_diff u m)%M 0%Z 0%Z.
Proof. rewrite UpdateLidar_writes. apply NIS_laser_set. Qed.

Lemma UpdateRadar_NIS (u : UKF) (m : MeasurementPackage) :
  NIS_radar_ (UpdateRadar' u m)
  = (transpose (UpdateRadar_z_diff NormalizeAngle u m)
     * inverse (UpdateRadar_S NormalizeAngle u)
     * UpdateRadar_z_diff NormalizeAngle u m)%M 0%Z 0%Z.
Proof. rewrite UpdateRadar_writes. apply NIS_radar_set. Qed.

(** X13.  Either update keeps the covariance symmetric, when the
    innovation covariance is symmetric and [inverse] returns a matrix of its
    size. *)
Theorem update_keeps_symmetry (u : UKF) (m : MeasurementPackage) :
  symmetric (n_x_ u) (P_ u) ->
  (cols (inverse (UpdateLidar_S u)) = n_z_laser_ u ->
   symmetric (n_z_laser_ u) (UpdateLidar_S u) ->
   symmetric (n_x_ u) (P_ (UpdateLidar' u m)))
  /\ (cols (inverse (UpdateRadar_S NormalizeAngle u)) = n_z_radar_ u ->
      symmetric (n_z_radar_ u) (UpdateRadar_S NormalizeAngle u) ->
      symmetric (n_x_ u) (P_ (UpdateRadar' u m))).
Proof.
  intros HP. split; intros Hc Hsym r c Hr Hc'.
  - rewrite UpdateLidar_P. cbn [sub coeff]. rewrite (HP r c Hr Hc').
    f_equal.
    apply (gain_form_symmetric _ _ (n_z_laser_ u));
      [apply UpdateLidar_S_cols | exact Hc | exact Hsym].
  - rewrite UpdateRadar_P. cbn [sub coeff]. rewrite (HP r c Hr Hc').
    f_equal.
    apply (gain_form_symmetric _ _ (n_z_radar_ u));
      [apply UpdateRadar_S_cols | exact Hc | exact Hsym].
Qed.

(** X14.  Neither update raises a variance: when the innovation
    covariance is positive definite and [inverse] returns a matrix of its
    size, every diagonal entry of the covariance after the update is at
    most what it was before. *)
Theorem update_never_raises_variance (u : UKF) (m : MeasurementPackage)
    (r : Z) :
  (0 <= r < n_x_ u)%Z ->
  (cols (inverse (UpdateLidar_S u)) = n_z_laser_ u ->
   positive_definite (n_z_laser_ u) (UpdateLidar_S u) ->
   P_ (UpdateLidar' u m) r r <= P_ u r r)
  /\ (cols (inverse (UpdateRadar_S NormalizeAngle u)) = n_z_radar_ u ->
      positive_definite (n_z_radar_ u) (UpdateRadar_S NormalizeAngle u) ->
      P_ (UpdateRadar' u m) r r <= P_ u r r).
Proof.
  intros _. split; intros Hc Hpd.
  - rewrite UpdateLidar_P. cbn [sub coeff].
    pose proof (gain_form_diagonal_nonneg
                  (UpdateLidar_K NormalizeAngle inverse u) (UpdateLidar_S u)
                  (n_z_laser_ u) r (UpdateLidar_S_cols u) Hc Hpd) as H.
    lra.
  - rewrite UpdateRadar_P. cbn [sub coeff].
    pose proof (gain_form_diagonal_nonneg
                  (UpdateRadar_K NormalizeAngle inverse u)
                  (UpdateRadar_S NormalizeAngle u)
                  (n_z_radar_ u) r (UpdateRadar_S_cols u) Hc Hpd) as H.
    lra.
Qed.

(** A product with a vector of zeros. *)
Lemma mul_zero_vector (A z : MatrixXd) (r : Z) :
  (forall k, (0 <= k < cols A)%Z -> z k 0%Z = 0) -> (A * z)%M r 0%Z = 0.
Proof.
  intros Hz. cbn [mul coeff].
  rewrite (sum_upto_ext _ _ (fun _ => 0)); [apply sum_upto_zero |].
  intros k Hk. rewrite (Hz k Hk). ring.
Qed.

(** X15.  A measurement that equals the predicted measurement changes
    nothing in the state vector and gives the NIS value 0, whatever the gain
    is, when [inverse] returns a matrix of the size of the measurement; for
    the radar the angle wrap has to leave a zero bearing residual at
    zero. *)
Theorem zero_innovation (u : UKF) (m : MeasurementPackage) :
  (cols (inverse (UpdateLidar_S u)) = n_z_laser_ u ->
   (forall k, (0 <= k < n_z_laser_ u)%Z ->
      at_ (raw_measurements_ m) k = at_ (UpdateLidar_z_pred u) k) ->
   (forall r, (0 <= r < n_x_ u)%Z ->
      at_ (x_ (UpdateLidar' u m)) r = at_ (x_ u) r)
   /\ NIS_laser_ (UpdateLidar' u m) = 0)
  /\ (cols (inverse (UpdateRadar_S NormalizeAngle u)) = n_z_radar_ u ->
      (forall k, (0 <= k < n_z_radar_ u)%Z ->
         at_ (raw_measurements_ m) k = at_ (UpdateRadar_z_pred u) k) ->
      NormalizeAngle 0 = 0 ->
      (forall r, (0 <= r < n_x_ u)%Z ->
         at_ (x_ (UpdateRadar' u m)) r = at_ (x_ u) r)
      /\ NIS_radar_ (UpdateRadar' u m) = 0).
Proof.
  split.
  - intros Hc Hz.
    assert (Hd : forall k, (0 <= k < n_z_laser_ u)%Z ->
              UpdateLidar_z_diff u m k 0%Z = 0).
    { intros k Hk. unfold UpdateLidar_z_diff. cbn [sub coeff].
      fold (at_ (raw_measurements_ m) k).
      fold (at_ (UpdateLidar_z_pred u) k). rewrite (Hz k Hk). ring. }
    split.
    + intros r _. rewrite UpdateLidar_x. unfold at_. cbn [add coeff].
      rewrite mul_zero_vector; [ring |].
      intros k Hk. apply Hd. unfold UpdateLidar_K in Hk. cbn [mul cols] in Hk.
      rewrite Hc in Hk. exact Hk.
    + rewrite UpdateLidar_NIS. apply mul_zero_vector.
      intros k Hk. apply Hd. cbn [mul cols] in Hk.
      rewrite Hc in Hk. exact Hk.
  - intros Hc Hz HN.
    assert (Hd : forall k, (0 <= k < n_z_radar_ u)%Z ->
              UpdateRadar_z_diff NormalizeAngle u m k 0%Z = 0).
    { intros k Hk. unfold UpdateRadar_z_diff, normalize_at, at_.
      cbn [set_coeff sub coeff].
      fold (at_ (raw_measurements_ m) k).
      fold (at_ (raw_measurements_ m) 1).
      fold (at_ (UpdateRadar_z_pred u) k).
      fold (at_ (UpdateRadar_z_pred u) 1).
      destruct (Z.eqb_spec k 1) as [-> | _]; cbn [andb];
        rewrite (Hz _ Hk), Rminus_diag; [exact HN | reflexivity]. }
    split.
    + intros r _. rewrite UpdateRadar_x. unfold at_. cbn [add coeff].
      rewrite mul_zero_vector; [ring |].
      intros k Hk. apply Hd. unfold UpdateRadar_K in Hk.
      cbn [mul cols] in Hk. rewrite Hc in Hk. exact Hk.
    + rewrite UpdateRadar_NIS. apply mul_zero_vector.
      intros k Hk. apply Hd. cbn [mul cols] in Hk.
      rewrite Hc in Hk. exact Hk.
Qed.

End UpdateStep.

(** ** The radar measurement model *)

Section RadarModel.

(** The projection of a vector on a unit direction is no longer than the
    vector. *)
Lemma projection_bound (x y a : R) :
  Rabs (x * cos a + y * sin a) <= sqrt (x * x + y * y).
Proof.
  rewrite <- sqrt_Rsqr_abs. apply sqrt_le_1_alt. unfold Rsqr.
  pose proof (sin2_cos2 a) as H. unfold Rsqr in H.
  assert (H0 : 0 <= (x * sin a - y * cos a) * (x * sin a - y * cos a))
    by apply Rle_0_sqr.
  nra.
Qed.

(** X16.  In the radar measurement model the range of a sigma point is
    the length of its position and is not negative, and its range rate is
    at most its speed in absolute value. *)
Theorem radar_model_bounds (u : UKF) (i : Z) :
  (0 <= i < n_sig_ u)%Z ->
  let p_x := Xsig_pred_ u 0%Z i in
  let p_y := Xsig_pred_ u 1%Z i in
  let v := Xsig_pred_ u 2%Z i in
  UpdateRadar_Zsig u 0%Z i = sqrt (p_x * p_x + p_y * p_y)
  /\ 0 <= UpdateRadar_Zsig u 0%Z i
  /\ Rabs (UpdateRadar_Zsig u 2%Z i) <= Rabs v.
Proof.
  intros Hi p_x p_y v.
  rewrite (UpdateRadar_Zsig_column u 0 i), (UpdateRadar_Zsig_column u 2 i)
    by lia.
  cbn. rewrite Z.eqb_refl. cbn. fold p_x p_y v.
  split; [reflexivity |]. split; [apply sqrt_pos |].
  set (g := radar_guard p_x p_y).
  set (yaw := Xsig_pred_ u 3%Z i).
  pose proof (radar_guard_nonzero p_x p_y) as Hnz. fold g in Hnz.
  assert (Hn : 0 < sqrt (fst g * fst g + snd g * snd g)).
  { apply sqrt_lt_R0. nra. }
  replace ((fst g * (cos yaw * v) + snd g * (sin yaw * v))
           / sqrt (fst g * fst g + snd g * snd g))
    with ((fst g * cos yaw + snd g * sin yaw) * v
          / sqrt (fst g * fst g + snd g * snd g))
    by (field; lra).
  unfold Rdiv. rewrite !Rabs_mult.
  rewrite (Rabs_pos_eq (/ _)) by (left; apply Rinv_0_lt_compat, Hn).
  pose proof (projection_bound (fst g) (snd g) yaw) as Hb.
  pose proof (Rabs_pos v) as Hv.
  apply (Rmult_le_reg_r (sqrt (fst g * fst g + snd g * snd g))); [exact Hn |].
  rewrite Rmult_assoc, Rinv_l by lra. nra.
Qed.

End RadarModel.

(** *** The polar to Cartesian conversion and back *)



Section RadarBootstrap.

Variable NormalizeAngle : R -> R.
Variable llt : MatrixXd -> LLT.
Variable inverse : MatrixXd -> MatrixXd.


End RadarBootstrap.

(** ** The steps composed *)

Section Composition.

Variable NormalizeAngle : R -> R.
Variable llt : MatrixXd -> LLT.
Variable inverse : MatrixXd -> MatrixXd.

Local Abbreviation ProcessMeasurement' :=
  (ProcessMeasurement NormalizeAngle llt inverse).
Local Abbreviation Prediction' := (Prediction NormalizeAngle llt).
Local Abbreviation UpdateLidar' := (UpdateLidar NormalizeAngle inverse).

(** X18.  Past initialisation, a laser measurement of an enabled laser is
    processed as a prediction to the measurement's time followed by the
    laser update, whose innovation is the measurement less the predicted
    position: the new state is the predicted state plus the gain applied to
    that difference. *)
Theorem ProcessMeasurement_laser (u : UKF) (m : MeasurementPackage) :
  is_initialized_ u = true ->
  use_laser_ u = true ->
  sensor_type_ m = LASER ->
  (0 <= n_sig_ u)%Z ->
  let p := Prediction' (IZR (timestamp_ m - time_us_ u) / 1000000.0)
             (set_time_us_ (timestamp_ m) u) in
  let K := UpdateLidar_K NormalizeAngle inverse p in
  ProcessMeasurement' u m = UpdateLidar' p m
  /\ (forall k, (0 <= k < n_z_laser_ u)%Z ->
        at_ (UpdateLidar_z_diff p m) k
        = at_ (raw_measurements_ m) k - at_ (x_ p) k)
  /\ (cols (inverse (UpdateLidar_S p)) = n_z_laser_ u ->
      forall r, (0 <= r < n_x_ u)%Z ->
        at_ (x_ (ProcessMeasurement' u m)) r
        = at_ (x_ p) r
          + sum_upto (n_z_laser_ u)
              (fun k => K r k
                        * (at_ (raw_measurements_ m) k - at_ (x_ p) k))).
Proof.
  intros Hi Hl Hs Hn p K.
  assert (HPM : ProcessMeasurement' u m = UpdateLidar' p m).
  { rewrite (ProcessMeasurement_ready NormalizeAngle llt inverse u m Hi).
    rewrite Hs. cbn [sensor_enabled]. rewrite Hl. reflexivity. }
  assert (Hn' : (0 <= n_sig_ (set_time_us_ (timestamp_ m) u))%Z)
    by (destruct u; exact Hn).
  assert (Hd : forall k, at_ (UpdateLidar_z_diff p m) k
                         = at_ (raw_measurements_ m) k - at_ (x_ p) k).
  { intros k. unfold p.
    rewrite <- (UpdateLidar_z_pred_after_Prediction NormalizeAngle llt _ _ k
                  Hn').
    reflexivity. }
  split; [exact HPM |]. split; [intros k _; apply Hd |].
  intros Hc r _. rewrite HPM, UpdateLidar_x. fold K. unfold at_ at 1.
  cbn [add mul coeff]. fold (at_ (x_ p) r). f_equal.
  replace (cols K) with (n_z_laser_ u) by (symmetry; exact Hc).
  apply sum_upto_ext. intros k _.
  fold (at_ (UpdateLidar_z_diff p m) k). rewrite Hd. reflexivity.
Qed.

(** X19.  Past initialisation, a measurement of a disabled sensor that
    carries the stored time stamp leaves the state vector as it is, in every
    filter with the constructor's dimensions. *)
Theorem disabled_sensor_same_time (u : UKF) (m : MeasurementPackage) :
  is_initialized_ u = true ->
  sensor_enabled u (sensor_type_ m) = false ->
  timestamp_ m = time_us_ u ->
  n_aug_ u = 7%Z ->
  n_sig_ u = 15%Z ->
  lambda_ u = -4 ->
  forall r, (0 <= r < 5)%Z ->
    at_ (x_ (ProcessMeasurement' u m)) r = at_ (x_ u) r.
Proof.
  intros Hi He Ht Ha Hs Hl r Hr.
  rewrite (ProcessMeasurement_ready_disabled NormalizeAngle llt inverse
             u m Hi He).
  rewrite Ht, Z.sub_diag.
  replace (0 / 1000000.0) with 0 by lra.
  assert (Hx : x_ (set_time_us_ (time_us_ u) u) = x_ u)
    by (destruct u; reflexivity).
  rewrite <- Hx.
  apply Prediction_mean_zero_time; try assumption;
    destruct u; assumption.
Qed.

(** X20.  In every filter a client can arrive at, the stored weights are
    either the empty vector the constructor left or the fifteen weights
    -4/3, 1/6, ..., 1/6 of a prediction, which sum to 1. *)
Theorem reachable_weights (u : UKF) :
  reachable NormalizeAngle llt inverse u ->
  weights_ u = weights_ UKF_new
  \/ (weights_ u = set_weights UKF_new
      /\ sum_upto 15 (at_ (weights_ u)) = 1).
Proof.
  assert (Hsum : sum_upto 15 (at_ (set_weights UKF_new)) = 1).
  { rewrite sum_upto_15. unfold at_. cbn. lra. }
  induction 1 as [| b u Hu IH | b u Hu IH | u m Hu IH].
  - left. reflexivity.
  - destruct u; exact IH.
  - destruct u; exact IH.
  - destruct (is_initialized_ u) eqn:Hi.
    + right.
      assert (Hw : weights_ (ProcessMeasurement' u m) = set_weights UKF_new).
      { rewrite (ProcessMeasurement_ready NormalizeAngle llt inverse
                   u m Hi).
        set (p := Prediction' (IZR (timestamp_ m - time_us_ u) / 1000000.0)
                    (set_time_us_ (timestamp_ m) u)).
        assert (Hp : weights_ p = set_weights UKF_new).
        { unfold p. rewrite Prediction_weights.
          destruct (reachable_dimensions NormalizeAngle llt inverse u Hu)
            as (H2 & H3 & H6).
          unfold set_weights. destruct u; cbn in *. subst. reflexivity. }
        destruct (sensor_enabled u (sensor_type_ m)); [| exact Hp].
        destruct (sensor_type_ m).
        - destruct (UpdateLidar_frame NormalizeAngle inverse p m)
            as (_ & _ & _ & _ & ->). exact Hp.
        - destruct (UpdateRadar_frame NormalizeAngle inverse p m)
            as (_ & _ & _ & _ & ->). exact Hp. }
      split; [exact Hw | rewrite Hw; exact Hsum].
    + rewrite (ProcessMeasurement_uninitialized NormalizeAngle llt inverse
                 u m Hi).
      destruct (sensor_enabled u (sensor_type_ m));
        (destruct IH as [IH | IH]; [left | right]);
        destruct u; exact IH.
Qed.

End Composition.

(** ** The properties at concrete inputs *)

Lemma diagonal_symmetric (n : Z) (d : Z -> R) (S : MatrixXd) :
  diagonal n d S -> symmetric n S.
Proof.
  intros (_ & _ & HS) i j Hi Hj. rewrite !HS by assumption.
  rewrite (Z.eqb_sym j i).
  destruct (Z.eqb_spec i j) as [-> | _]; reflexivity.
Qed.


Lemma NIS_written_by_own_sensor_witness :
  NIS_radar_ (ProcessMeasurement wrap_angle llt_ref inverse_ref
                UKF_tracking laser_at_4s)
  = NIS_radar_ UKF_tracking.
Proof.
  destruct (NIS_written_by_own_sensor wrap_angle llt_ref inverse_ref
              UKF_tracking laser_at_4s) as (H & _).
  apply H. reflexivity.
Defined.

Lemma reachable_invariant_witness :
  n_sig_ UKF_tracking = 15%Z /\ rows (P_ UKF_tracking) = 5%Z.
Proof.
  destruct (reachable_invariant wrap_angle llt_ref inverse_ref UKF_tracking
              UKF_tracking_reachable)
    as (_ & _ & Hs & _ & _ & _ & _ & _ & _ & _ & HP & _).
  split; assumption.
Defined.

Lemma sigma_points_carry_mean_and_covariance_witness :
  sum_upto 15
    (fun i => at_ (set_weights UKF_new) i
              * AugmentedSigmaPoints llt_ref UKF_new 0%Z i)
  = at_ (x_aug_of UKF_new) 0.
Proof.
  pose proof (sigma_points_carry_mean_and_covariance llt_ref UKF_new
                eq_refl eq_refl eq_refl) as H.
  cbv zeta in H. destruct H as (H & _). apply H. lia.
Defined.

Lemma ctrv_motion_model_linear_rows_witness :
  SigmaPointPrediction UKF_new (of_list [0; 0; 1; 0; 0; 2; 0]) 1 2%Z 0%Z
  = of_list [0; 0; 1; 0; 0; 2; 0] 2%Z 0%Z
    + of_list [0; 0; 1; 0; 0; 2; 0] 5%Z 0%Z * 1.
Proof.
  assert (Hi : (0 <= 0 < n_sig_ UKF_new)%Z) by (cbn; lia).
  pose proof (ctrv_motion_model_linear_rows UKF_new
                (of_list [0; 0; 1; 0; 0; 2; 0]) 1 0 Hi) as H.
  cbv zeta in H. destruct H as (H & _). exact H.
Defined.

Lemma Prediction_linear_means_witness :
  at_ (x_ (Prediction wrap_angle llt_ref 1 UKF_turning)) 3
  = at_ (x_ UKF_turning) 3 + at_ (x_ UKF_turning) 4 * 1.
Proof.
  pose proof (Prediction_linear_means wrap_angle llt_ref 1 UKF_turning
                eq_refl eq_refl eq_refl) as H.
  cbv zeta in H. destruct H as (_ & H & _). exact H.
Defined.

Lemma Prediction_zero_time_witness :
  P_ (Prediction wrap_angle llt_ref 0 (set_time_us_ 4000000 UKF_tracking))
    2%Z 2%Z
  = P_ (set_time_us_ 4000000 UKF_tracking) 2%Z 2%Z.
Proof.
  pose proof (Prediction_zero_time wrap_angle llt_ref
                (set_time_us_ 4000000 UKF_tracking)
                eq_refl eq_refl eq_refl) as H.
  cbv zeta in H. destruct H as (_ & H).
  apply H; try lia.
  assert (Hd : forall i, (0 <= i < 7)%Z ->
            0 < listed 0 [1; 1; 1; 1; 1; 0.25 * 0.25;
                          20.0 / 100.0 * PI * (20.0 / 100.0 * PI)] i).
  { intros i Hi. pose proof PI_RGT_0.
    assert (i = 0 \/ i = 1 \/ i = 2 \/ i = 3 \/ i = 4 \/ i = 5 \/ i = 6)%Z
      as [-> | [-> | [-> | [-> | [-> | [-> | ->]]]]]] by lia;
      cbn; nra. }
  destruct (llt_ref_diagonal 7 _ _ ltac:(lia) P_aug_tracking Hd)
    as [_ HL].
  intros r c Hr Hc. rewrite sum_upto_7.
  rewrite !HL by lia.
  assert (r = 0 \/ r = 1 \/ r = 2 \/ r = 3 \/ r = 4)%Z
    as [-> | [-> | [-> | [-> | ->]]]] by lia;
    assert (c = 0 \/ c = 1 \/ c = 2 \/ c = 3 \/ c = 4)%Z
      as [-> | [-> | [-> | [-> | ->]]]] by lia;
    cbn; rewrite ?sqrt_1; lra.
Defined.

Lemma Prediction_covariance_symmetric_witness :
  P_ (Prediction wrap_angle llt_ref 1 UKF_new) 0%Z 1%Z
  = P_ (Prediction wrap_angle llt_ref 1 UKF_new) 1%Z 0%Z.
Proof.
  apply (Prediction_covariance_symmetric wrap_angle llt_ref 1 UKF_new);
    cbn; lia.
Defined.

Lemma UpdateLidar_after_Prediction_witness :
  at_ (UpdateLidar_z_pred (Prediction wrap_angle llt_ref 1 UKF_new)) 0
  = at_ (x_ (Prediction wrap_angle llt_ref 1 UKF_new)) 0.
Proof.
  assert (Hn : (0 <= n_sig_ UKF_new)%Z) by (cbn; lia).
  pose proof (UpdateLidar_after_Prediction wrap_angle llt_ref 1 UKF_new
                eq_refl Hn) as H.
  cbv zeta in H. destruct H as (H & _). apply H. lia.
Defined.

Lemma innovation_covariance_symmetric_witness :
  symmetric (n_z_laser_ UKF_at_origin) (UpdateLidar_S UKF_at_origin).
Proof.
  destruct (innovation_covariance_symmetric wrap_angle UKF_at_origin)
    as (H & _).
  apply H. intros i j Hi Hj.
  change (n_z_laser_ UKF_at_origin) with 2%Z in Hi, Hj.
  assert (i = 0 \/ i = 1)%Z as [-> | ->] by lia;
    assert (j = 0 \/ j = 1)%Z as [-> | ->] by lia; reflexivity.
Defined.

Lemma update_keeps_symmetry_witness :
  symmetric (n_x_ UKF_at_origin)
    (P_ (UpdateLidar wrap_angle inverse_ref UKF_at_origin laser_at_3s)).
Proof.
  assert (HP : symmetric (n_x_ UKF_at_origin) (P_ UKF_at_origin)).
  { intros i j _ _. cbn. rewrite (Z.eqb_sym j i). reflexivity. }
  destruct (update_keeps_symmetry wrap_angle inverse_ref UKF_at_origin
              laser_at_3s HP) as (H & _).
  apply H; [reflexivity |].
  apply (diagonal_symmetric 2 (fun _ => 0.15 * 0.15)).
  exact UpdateLidar_S_at_origin.
Defined.

Lemma update_never_raises_variance_witness :
  P_ (UpdateLidar wrap_angle inverse_ref UKF_at_origin laser_at_3s) 0%Z 0%Z
  <= P_ UKF_at_origin 0%Z 0%Z.
Proof.
  assert (Hr : (0 <= 0 < n_x_ UKF_at_origin)%Z) by (cbn; lia).
  destruct (update_never_raises_variance wrap_angle inverse_ref
              UKF_at_origin laser_at_3s 0 Hr) as (H & _).
  apply H; [reflexivity |].
  apply (diagonal_positive_definite_2 (fun _ => 0.15 * 0.15));
    [exact UpdateLidar_S_at_origin | lra | lra].
Defined.

Lemma zero_innovation_witness :
  NIS_laser_ (UpdateLidar wrap_angle inverse_ref UKF_at_origin
                laser_as_predicted) = 0.
Proof.
  destruct (zero_innovation wrap_angle inverse_ref UKF_at_origin
              laser_as_predicted) as (H & _).
  apply H; [reflexivity |]. intros k _. reflexivity.
Defined.

Lemma radar_model_bounds_witness :
  0 <= UpdateRadar_Zsig UKF_at_origin 0%Z 0%Z.
Proof.
  assert (Hi : (0 <= 0 < n_sig_ UKF_at_origin)%Z) by (cbn; lia).
  pose proof (radar_model_bounds UKF_at_origin 0 Hi) as H.
  cbv zeta in H. destruct H as (_ & H & _). exact H.
Defined.


Lemma ProcessMeasurement_laser_witness :
  ProcessMeasurement wrap_angle llt_ref inverse_ref UKF_tracking laser_at_4s
  = UpdateLidar wrap_angle inverse_ref
      (Prediction wrap_angle llt_ref
         (IZR (timestamp_ laser_at_4s - time_us_ UKF_tracking) / 1000000.0)
         (set_time_us_ (timestamp_ laser_at_4s) UKF_tracking))
      laser_at_4s.
Proof.
  assert (Hn : (0 <= n_sig_ UKF_tracking)%Z)
    by (change (n_sig_ UKF_tracking) with 15%Z; lia).
  pose proof (ProcessMeasurement_laser wrap_angle llt_ref inverse_ref
                UKF_tracking laser_at_4s eq_refl eq_refl eq_refl Hn) as H.
  cbv zeta in H. destruct H as (H & _). exact H.
Defined.

Lemma disabled_sensor_same_time_witness :
  at_ (x_ (ProcessMeasurement wrap_angle llt_ref inverse_ref UKF_tracking
             radar_at_3s)) 0
  = at_ (x_ UKF_tracking) 0.
Proof.
  apply (disabled_sensor_same_time wrap_angle llt_ref inverse_ref
           UKF_tracking radar_at_3s eq_refl eq_refl eq_refl eq_refl eq_refl
           eq_refl).
  lia.
Defined.

Lemma reachable_weights_witness :
  weights_ UKF_tracking = weights_ UKF_new
  \/ (weights_ UKF_tracking = set_weights UKF_new
      /\ sum_upto 15 (at_ (weights_ UKF_tracking)) = 1).
Proof.
  apply (reachable_weights wrap_angle llt_ref inverse_ref UKF_tracking).
  exact UKF_tracking_reachable.
Defined.

(** On a diagonal matrix with positive entries the factor the reference
    factorisation returns multiplies back to the matrix. *)
Lemma llt_ref_diagonal_factor (d : Z -> R) (A : MatrixXd) :
  diagonal 7 d A ->
  (forall i, (0 <= i < 7)%Z -> 0 < d i) ->
  forall r c, (0 <= r < 7)%Z -> (0 <= c < 7)%Z ->
    sum_upto 7 (fun j => matrixL (llt_ref A) r j * matrixL (llt_ref A) c j)
    = A r c.
Proof.
  intros HA Hd r c Hr Hc.
  destruct (llt_ref_diagonal 7 d A ltac:(lia) HA Hd) as [_ HL].
  destruct HA as (_ & _ & HA). rewrite (HA r c Hr Hc).
  rewrite sum_upto_7, !HL by lia.
  assert (Hq : forall i, (0 <= i < 7)%Z -> sqrt (d i) * sqrt (d i) = d i)
    by (intros i Hi; apply sqrt_sqrt; left; apply Hd, Hi).
  assert (r = 0 \/ r = 1 \/ r = 2 \/ r = 3 \/ r = 4 \/ r = 5 \/ r = 6)%Z
    as [-> | [-> | [-> | [-> | [-> | [-> | ->]]]]]] by lia;
    assert (c = 0 \/ c = 1 \/ c = 2 \/ c = 3 \/ c = 4 \/ c = 5 \/ c = 6)%Z
      as [-> | [-> | [-> | [-> | [-> | [-> | ->]]]]]] by lia;
    cbn [Z.eqb Pos.eqb]; rewrite ?Hq by lia; ring.
Qed.

Lemma Prediction_process_noise_witness :
  P_ (Prediction wrap_angle llt_ref 1 (set_time_us_ 4000000 UKF_tracking))
    2%Z 2%Z
  = P_ (set_time_us_ 4000000 UKF_tracking) 2%Z 2%Z
    + 1 * 1 * (std_a_ (set_time_us_ 4000000 UKF_tracking)
               * std_a_ (set_time_us_ 4000000 UKF_tracking)).
Proof.
  pose proof (Prediction_process_noise wrap_angle llt_ref 1
                (set_time_us_ 4000000 UKF_tracking)
                eq_refl eq_refl eq_refl) as H.
  cbv zeta in H. apply H.
  apply (llt_ref_diagonal_factor _ _ P_aug_tracking).
  intros i Hi. pose proof PI_RGT_0.
  assert (i = 0 \/ i = 1 \/ i = 2 \/ i = 3 \/ i = 4 \/ i = 5 \/ i = 6)%Z
    as [-> | [-> | [-> | [-> | [-> | [-> | ->]]]]]] by lia;
    cbn; nra.
Defined.
